(** * Shallow embedding of the gold pre-market report core

    Sources: [src/src/indicators.py] (indicator engine) and
    [src/src/build_report.py] ([traffic_light_logic], [build_plan_text]).

    Modelling conventions.
    - Prices are exact rationals [Q]; floating-point rounding is not modelled.
    - A pandas value that may be NaN is an [option Q]; [None] is NaN.
      Comparisons with NaN are [false], as in Python.
    - A [DataFrame] is the list of its rows in index order.
    - Python strings are [String.string] over ASCII; [str.lower] lowers
      the ASCII letters A-Z.
    - An exception escaping a function is [Raise] of a [PyExc]. *)

From Stdlib Require Import Strings.String Strings.Ascii.
From Stdlib Require Import QArith Qabs Qminmax ZArith List Bool Lia Lqa Sorted.
Import ListNotations.

Open Scope string_scope.
Open Scope Q_scope.
Open Scope list_scope.

(** ** Python-level helpers *)

(** Exceptions the modelled code can raise. *)
Inductive PyExc : Type :=
| IndexError (msg : string).

Inductive PyResult (A : Type) : Type :=
| Ok (a : A)
| Raise (e : PyExc).
Arguments Ok {A} a.
Arguments Raise {A} e.

(** [df.iloc[-1]]: pandas raises [IndexError] on an empty frame. *)
Definition iloc_last {A : Type} (xs : list A) : PyResult A :=
  match rev xs with
  | [] => Raise (IndexError "single positional indexer is out-of-bounds")
  | x :: _ => Ok x
  end.

(** Boolean comparisons on [Q] ([x > y], [x >= y]). *)
Definition Qgtb (x y : Q) : bool := negb (Qle_bool x y).
Definition Qgeb (x y : Q) : bool := Qle_bool y x.

(** [pd.isna(v)]-guarded read: [float(v) if not pd.isna(v) else d]. *)
Definition or_default (v : option Q) (d : Q) : Q :=
  match v with
  | Some x => x
  | None => d
  end.

(** ** Data model of the enriched frame *)

(** One row of the indicator-enriched frame, as read by the classifier
    and the plan builder. [Close] is never NaN (rows with a NaN OHLC
    value are dropped in [main] before enrichment). *)
Record Row : Type := mkRow {
  Close : Q;
  MA20 : option Q;
  MA50 : option Q;
  RSI14 : option Q;
  MACDHist : option Q;
  ATR14 : option Q
}.

Definition DataFrame := list Row.

(** A news item as produced by [news.fetch_news]: a dict whose ["title"]
    key may be missing ([None]). *)
Record NewsItem : Type := mkNews {
  source : string;
  title : option string;
  url : string;
  published : string;
  news_summary : string
}.

(** ** pandas rolling mean *)

Fixpoint all_defined (xs : list (option Q)) : option (list Q) :=
  match xs with
  | [] => Some []
  | None :: _ => None
  | Some x :: r =>
      match all_defined r with
      | Some l => Some (x :: l)
      | None => None
      end
  end.

Definition Qsum (xs : list Q) : Q := fold_right Qplus 0 xs.

(** Value of [s.rolling(p).mean()] at position [i]: NaN before [p]
    observations exist or when the window holds a NaN ([min_periods = p]);
    a window of 0 holds no observation, so its mean is NaN everywhere. *)
Definition rolling_at (p : nat) (xs : list (option Q)) (i : nat) : option Q :=
  if (Nat.eqb p 0 || Nat.ltb (S i) p)%bool then None
  else match all_defined (firstn p (skipn (S i - p) xs)) with
       | Some w => Some (Qsum w / inject_Z (Z.of_nat p))
       | None => None
       end.

Definition rolling_mean (p : nat) (xs : list (option Q)) : list (option Q) :=
  map (rolling_at p xs) (seq 0 (length xs)).

(** [s.bfill()]: every NaN takes the next non-NaN value after it, if any. *)
Fixpoint bfill (xs : list (option Q)) : list (option Q) :=
  match xs with
  | [] => []
  | x :: r =>
      let r' := bfill r in
      match x with
      | Some _ => x :: r'
      | None => hd None r' :: r'
      end
  end.

(** ** News keyword score ([traffic_light_logic], lines 128-139) *)

Definition lower_char (c : ascii) : ascii :=
  let n := nat_of_ascii c in
  if (Nat.leb 65 n && Nat.leb n 90)%bool then ascii_of_nat (n + 32) else c.

(** [str.lower] on ASCII text. *)
Fixpoint lower (s : string) : string :=
  match s with
  | EmptyString => EmptyString
  | String c r => String (lower_char c) (lower r)
  end.

(** Python's [k in t] for strings: [k] occurs as a substring of [t]. *)
Fixpoint contains (k t : string) : bool :=
  (prefix k t ||
   match t with
   | EmptyString => false
   | String _ r => contains k r
   end)%bool.

Definition neg_kw : list string :=
  ["hawkish"; "rate hike"; "higher yields"; "strong dollar"; "usd rises"; "risk-on"].

Definition pos_kw : list string :=
  ["dovish"; "rate cut"; "recession"; "geopolitical"; "safe haven"; "inflation";
   "war"; "conflict"].

(** [(n.get("title") or "").lower()] *)
Definition title_text (n : NewsItem) : string :=
  match title n with
  | Some t => lower t
  | None => lower ""
  end.

(** The accumulation loop over one item: first the positive keywords,
    then the negative ones, with no early exit. *)
Definition score_step (score : Z) (n : NewsItem) : Z :=
  let t := title_text n in
  let score := fold_left (fun s k => if contains k t then (s + 1)%Z else s) pos_kw score in
  fold_left (fun s k => if contains k t then (s - 1)%Z else s) neg_kw score.

Definition news_score (news_items : list NewsItem) : Z :=
  fold_left score_step news_items 0%Z.

(** ** Signal classifier ([traffic_light_logic], lines 110-184) *)

Inductive Verdict : Type := GREEN | RED | NEUTRAL.

Definition summary_of (tl : Verdict) : string :=
  match tl with
  | GREEN => "趋势与动量偏多，计划以回踩承接为主，严格控制波动风险。"
  | RED => "趋势与动量偏空，计划以反弹承压做空或观望为主，避免追单。"
  | NEUTRAL => "多空信号分歧，优先等待关键位确认，控制仓位与回撤。"
  end.

(** The values interpolated into the four bullet f-strings (their
    decimal formatting is not modelled). *)
Record Bullets : Type := mkBullets {
  b_close : Q;
  b_ma20 : Q;
  b_ma50 : Q;
  b_rsi14 : Q;
  b_macd_hist : Q;
  b_atr14 : Q;
  b_score : Z
}.

Record Driver : Type := mkDriver {
  driver : string;
  signal : string;
  note : string
}.

Record TrafficLight : Type := mkTL {
  tl : Verdict;
  summary : string;
  bullets : Bullets;
  drivers : list Driver;
  score : Z
}.

(** [float(df["ATR14"].rolling(50).mean().iloc[-1]) if len(df) >= 50 else atr14];
    the enriched frame always has the ["ATR14"] column. [None] is NaN. *)
Definition atr_mean_50 (df : DataFrame) (atr14 : Q) : option Q :=
  if Nat.leb 50 (length df)
  then last (rolling_mean 50 (map ATR14 df)) None
  else Some atr14.

(** ["High" if atr14 > atr_mean_50 else "Normal"]; a comparison with NaN
    is false. *)
Definition volatility_signal (atr14 : Q) (m : option Q) : string :=
  match m with
  | Some m => if Qgtb atr14 m then "High" else "Normal"
  | None => "Normal"
  end.

Definition traffic_light_logic (df : DataFrame) (news_items : list NewsItem)
  : PyResult TrafficLight :=
  match iloc_last df with
  | Raise e => Raise e
  | Ok last =>
      let close := Close last in
      let ma20 := or_default (MA20 last) close in
      let ma50 := or_default (MA50 last) close in
      let rsi14 := or_default (RSI14 last) 50 in
      let macd_hist := or_default (MACDHist last) 0 in
      let atr14 := or_default (ATR14 last) 0 in
      let trend_up := (Qgtb close ma20 && Qgtb ma20 ma50)%bool in
      let trend_down := (Qgtb ma20 close && Qgtb ma50 ma20)%bool in
      let momentum_up := (Qgeb rsi14 55 && Qgtb macd_hist 0)%bool in
      let momentum_down := (Qgeb 45 rsi14 && Qgtb 0 macd_hist)%bool in
      let score := news_score news_items in
      let tl :=
        if (trend_up && momentum_up && Z.leb 0 score)%bool then GREEN
        else if (trend_down && momentum_down && Z.leb score 0)%bool then RED
        else NEUTRAL in
      let bullets := mkBullets close ma20 ma50 rsi14 macd_hist atr14 score in
      let m50 := atr_mean_50 df atr14 in
      let drivers :=
        [ mkDriver "Trend (MA20/MA50)"
            (if trend_up then "Bullish" else if trend_down then "Bearish" else "Mixed")
            "价格相对均线位置与多空排列。";
          mkDriver "Momentum (RSI/MACD)"
            (if momentum_up then "Bullish" else if momentum_down then "Bearish" else "Mixed")
            "RSI 与 MACD 柱体方向。";
          mkDriver "Volatility (ATR)" (volatility_signal atr14 m50)
            "ATR 越高，越需要降杠杆与扩大止损。";
          mkDriver "Macro/News (headline heuristic)"
            (if Z.ltb 0 score then "Supportive"
             else if Z.ltb score 0 then "Headwind" else "Neutral")
            "基于关键词的粗略文本规则。" ] in
      Ok (mkTL tl (summary_of tl) bullets drivers score)
  end.

(** ** Plan text builder ([build_plan_text], lines 186-225) *)

(** The data-derived part of the plan: the S1/R1 levels interpolated into
    [base_case]; the rest of the returned text is constant. *)
Record PlanLevels : Type := mkPlan {
  r1 : Q;
  s1 : Q
}.

Definition build_plan_text (df : DataFrame) : PyResult PlanLevels :=
  match iloc_last df with
  | Raise e => Raise e
  | Ok last =>
      let close := Close last in
      let atr := or_default (ATR14 last) 0 in
      let r1 := close + (8 # 10) * atr in
      let s1 := close - (8 # 10) * atr in
      Ok (mkPlan r1 s1)
  end.

(** ** Indicator engine ([indicators.py]) *)

Module Indicators.

(** One OHLC row of the cleaned price frame (no NaN: [main] drops rows with
    a NaN Open/High/Low/Close before [enrich_indicators]). *)
Record Bar : Type := mkBar {
  Open : Q;
  High : Q;
  Low : Q;
  Close : Q
}.

(** [s.diff()]: NaN at position 0, then [s[i] - s[i-1]]. *)
Definition diff (xs : list Q) : list (option Q) :=
  match xs with
  | [] => []
  | _ :: r => None :: map (fun p => Some (snd p - fst p)) (combine xs r)
  end.

(** [s.shift(1)] *)
Definition shift1 (xs : list Q) : list (option Q) :=
  match xs with
  | [] => []
  | _ => None :: map Some (removelast xs)
  end.

(** [delta.where(delta > 0, 0.0)]: NaN > 0 is false, so NaN becomes 0.0. *)
Definition gain_of (d : option Q) : option Q :=
  match d with
  | Some x => if Qgtb x 0 then Some x else Some 0
  | None => Some 0
  end.

(** [-delta.where(delta < 0, 0.0)] *)
Definition loss_of (d : option Q) : option Q :=
  match d with
  | Some x => if Qgtb 0 x then Some (- x) else Some (- 0)
  | None => Some (- 0)
  end.

(** [loss.replace(0, np.nan)] *)
Definition replace0 (v : option Q) : option Q :=
  match v with
  | Some x => if Qeq_bool x 0 then None else Some x
  | None => None
  end.

(** [100 - (100 / (1 + gain / loss))] on one position; NaN propagates. *)
Definition rsi_point (g l : option Q) : option Q :=
  match g, l with
  | Some g, Some l => let rs := g / l in Some (100 - 100 / (1 + rs))
  | _, _ => None
  end.

(** [gain] and [loss]: the rolling means of the per-step gains and losses. *)
Definition avg_gain (close : list Q) (period : nat) : list (option Q) :=
  rolling_mean period (map gain_of (diff close)).

Definition avg_loss (close : list Q) (period : nat) : list (option Q) :=
  rolling_mean period (map loss_of (diff close)).

(** [out], before [.bfill()]. *)
Definition rsi_out (close : list Q) (period : nat) : list (option Q) :=
  map (fun p => rsi_point (fst p) (replace0 (snd p)))
      (combine (avg_gain close period) (avg_loss close period)).

Definition rsi (close : list Q) (period : nat) : list (option Q) :=
  bfill (rsi_out close period).

(** Row-wise [max(axis=1)] with [skipna=True]: NaN only when all are NaN. *)
Definition nanmax (xs : list (option Q)) : option Q :=
  fold_left (fun acc x =>
               match acc, x with
               | Some a, Some b => Some (Qmax a b)
               | None, x => x
               | acc, None => acc
               end) xs None.

Definition opt_abs (v : option Q) : option Q := option_map Qabs v.

Definition true_range (b : Bar) (prev_close : option Q) : option Q :=
  nanmax [ Some (High b - Low b);
           opt_abs (option_map (fun pc => High b - pc) prev_close);
           opt_abs (option_map (fun pc => Low b - pc) prev_close) ].

Definition atr (df : list Bar) (period : nat) : list (option Q) :=
  let prev_close := shift1 (map Close df) in
  let tr := map (fun p => true_range (fst p) (snd p)) (combine df prev_close) in
  bfill (rolling_mean period tr).

End Indicators.

(** ** News score lemmas *)

Definition count_kw (kws : list string) (t : string) : Z :=
  Z.of_nat (length (filter (fun k => contains k t) kws)).

(** Contribution of one news item to the score. *)
Definition item_score (n : NewsItem) : Z := score_step 0 n.

Lemma fold_incr (t : string) (kws : list string) (s : Z) :
  fold_left (fun s k => if contains k t then (s + 1)%Z else s) kws s
  = (s + count_kw kws t)%Z.
Proof.
  revert s; induction kws as [|k kws IH]; intro s; cbn [fold_left filter].
  - unfold count_kw; simpl; lia.
  - rewrite IH. unfold count_kw; cbn [filter].
    destruct (contains k t); cbn [length]; lia.
Qed.

Lemma fold_decr (t : string) (kws : list string) (s : Z) :
  fold_left (fun s k => if contains k t then (s - 1)%Z else s) kws s
  = (s - count_kw kws t)%Z.
Proof.
  revert s; induction kws as [|k kws IH]; intro s; cbn [fold_left filter].
  - unfold count_kw; simpl; lia.
  - rewrite IH. unfold count_kw; cbn [filter].
    destruct (contains k t); cbn [length]; lia.
Qed.

Lemma score_step_eq (s : Z) (n : NewsItem) :
  score_step s n = (s + count_kw pos_kw (title_text n) - count_kw neg_kw (title_text n))%Z.
Proof. unfold score_step. rewrite fold_incr, fold_decr. reflexivity. Qed.

Lemma item_score_eq (n : NewsItem) :
  item_score n = (count_kw pos_kw (title_text n) - count_kw neg_kw (title_text n))%Z.
Proof. unfold item_score. rewrite score_step_eq. lia. Qed.

Lemma fold_score_shift (xs : list NewsItem) (s : Z) :
  fold_left score_step xs s = (s + fold_right (fun n acc => item_score n + acc) 0 xs)%Z.
Proof.
  revert s; induction xs as [|n xs IH]; intro s; simpl.
  - lia.
  - rewrite IH, score_step_eq, item_score_eq. lia.
Qed.

Lemma news_score_sum (xs : list NewsItem) :
  news_score xs = fold_right (fun n acc => item_score n + acc)%Z 0%Z xs.
Proof. unfold news_score. rewrite fold_score_shift. lia. Qed.

Definition headline (t : string) : NewsItem := mkNews "" (Some t) "" "" "".

(** ** Claims about the news score *)

(** C2: the news score is the sum, over all items, of the number of positive
    keywords occurring as substrings of the lower-cased title minus the
    number of negative keywords occurring in it (several keywords of one
    title all count); "Fed turns dovish amid recession fears" scores +2,
    "Hawkish Fed sparks rate hike bets, strong dollar rises" scores -3 and
    the list of both scores -1. *)
Theorem news_score_spec :
  (forall xs : list NewsItem,
     news_score xs =
     fold_right (fun n acc =>
                   (count_kw pos_kw (title_text n) - count_kw neg_kw (title_text n)) + acc)%Z
                0%Z xs) /\
  news_score [headline "Fed turns dovish amid recession fears"] = 2%Z /\
  news_score [headline "Hawkish Fed sparks rate hike bets, strong dollar rises"] = (-3)%Z /\
  news_score [headline "Fed turns dovish amid recession fears";
              headline "Hawkish Fed sparks rate hike bets, strong dollar rises"] = (-1)%Z.
Proof.
  split; [|vm_compute; repeat split].
  intro xs. rewrite news_score_sum.
  induction xs as [|n xs IH]; simpl; [reflexivity|].
  rewrite IH, item_score_eq. reflexivity.
Qed.

(** C10: the news score is additive over concatenation; each item's
    contribution depends only on its title, and an item with a missing or
    empty title contributes 0. *)
Theorem news_score_additive :
  (forall xs ys : list NewsItem,
     news_score (xs ++ ys) = (news_score xs + news_score ys)%Z) /\
  (forall n n' : NewsItem, title n = title n' -> item_score n = item_score n') /\
  (forall n : NewsItem, title n = None \/ title n = Some "" -> item_score n = 0%Z) /\
  (forall xs : list NewsItem,
     news_score xs = fold_right (fun n acc => item_score n + acc)%Z 0%Z xs).
Proof.
  split; [|split; [|split]].
  - intros xs ys. rewrite !news_score_sum, fold_right_app.
    rewrite <- (news_score_sum ys).
    induction xs as [|n xs IH]; simpl; [reflexivity|]. rewrite IH. lia.
  - intros n n' H. rewrite !item_score_eq. unfold title_text. rewrite H. reflexivity.
  - intros n [H|H]; rewrite item_score_eq; unfold title_text; rewrite H; vm_compute; reflexivity.
  - exact news_score_sum.
Qed.

(** ** Classifier lemmas *)

Lemma iloc_last_snoc {A : Type} (xs : list A) (x : A) :
  iloc_last (xs ++ [x]) = Ok x.
Proof. unfold iloc_last. rewrite rev_app_distr. reflexivity. Qed.

Lemma Qgtb_true (x y : Q) : Qgtb x y = true <-> y < x.
Proof.
  unfold Qgtb. rewrite negb_true_iff. split; intro H.
  - apply Qnot_le_lt. intro H'. apply Qle_bool_iff in H'. congruence.
  - destruct (Qle_bool x y) eqn:E; [|reflexivity].
    apply Qle_bool_iff in E. exfalso. apply (Qlt_not_le y x); assumption.
Qed.

Lemma Qgtb_false (x y : Q) : Qgtb x y = false <-> x <= y.
Proof.
  unfold Qgtb. rewrite negb_false_iff. apply Qle_bool_iff.
Qed.

Lemma Qgeb_true (x y : Q) : Qgeb x y = true <-> y <= x.
Proof. unfold Qgeb. apply Qle_bool_iff. Qed.

Lemma Qgeb_false (x y : Q) : Qgeb x y = false <-> x < y.
Proof.
  unfold Qgeb. split; intro H.
  - apply Qnot_le_lt. intro H'. apply Qle_bool_iff in H'. congruence.
  - destruct (Qle_bool y x) eqn:E; [|reflexivity].
    apply Qle_bool_iff in E. exfalso. apply (Qlt_not_le x y); assumption.
Qed.

(** Turn every boolean comparison of the goal into a case split with its
    arithmetic meaning in the context. *)
Ltac split_cmp :=
  repeat match goal with
  | |- context [Qgtb ?x ?y] =>
      let E := fresh "E" in
      destruct (Qgtb x y) eqn:E;
      [apply Qgtb_true in E | apply Qgtb_false in E]
  | |- context [Qgeb ?x ?y] =>
      let E := fresh "E" in
      destruct (Qgeb x y) eqn:E;
      [apply Qgeb_true in E | apply Qgeb_false in E]
  | |- context [Z.leb ?x ?y] =>
      let E := fresh "E" in destruct (Z.leb x y) eqn:E
  end.

(** The verdict rule as the spec words it, on the raw latest row: a
    comparison involving an undefined (NaN) value is false. *)
Definition ogtb (x y : option Q) : bool :=
  match x, y with
  | Some a, Some b => Qgtb a b
  | _, _ => false
  end.

Definition ogeb (x y : option Q) : bool :=
  match x, y with
  | Some a, Some b => Qgeb a b
  | _, _ => false
  end.

Definition spec_verdict (r : Row) (score : Z) : Verdict :=
  let c := Some (Close r) in
  if (ogtb c (MA20 r) && ogtb (MA20 r) (MA50 r) &&
      ogeb (RSI14 r) (Some 55) && ogtb (MACDHist r) (Some 0) && Z.leb 0 score)%bool
  then GREEN
  else if (ogtb (MA20 r) c && ogtb (MA50 r) (MA20 r) &&
           ogeb (Some 45) (RSI14 r) && ogtb (Some 0) (MACDHist r) && Z.leb score 0)%bool
  then RED
  else NEUTRAL.

(** C1: on a non-empty series (any frame [df0 ++ [r]] whose latest row is
    [r]), the verdict follows first-match precedence: GREEN iff
    close > MA20 > MA50, RSI14 >= 55, MACDHist > 0 and score >= 0; else RED
    iff close < MA20 < MA50, RSI14 <= 45, MACDHist < 0 and score <= 0; else
    NEUTRAL. With trend up, momentum up and score 0 the verdict is GREEN. *)
Theorem traffic_light_verdict :
  forall (df0 : DataFrame) (r : Row) (news_items : list NewsItem),
  exists out : TrafficLight,
    traffic_light_logic (df0 ++ [r]) news_items = Ok out /\
    score out = news_score news_items /\
    tl out = spec_verdict r (news_score news_items) /\
    (forall c m20 m50 rsi h,
       r = mkRow c (Some m20) (Some m50) (Some rsi) (Some h) (ATR14 r) ->
       c > m20 -> m20 > m50 -> rsi >= 55 -> h > 0 -> news_score news_items = 0%Z ->
       tl out = GREEN).
Proof.
  intros df0 r ns.
  unfold traffic_light_logic. rewrite iloc_last_snoc.
  eexists. split; [reflexivity|]. split; [reflexivity|]. cbn [tl].
  split.
  - destruct r as [c m20 m50 rsi h a]; cbn [Close MA20 MA50 RSI14 MACDHist ATR14 or_default].
    unfold spec_verdict; cbn [Close MA20 MA50 RSI14 MACDHist].
    destruct m20 as [m20|], m50 as [m50|], rsi as [rsi|], h as [h|];
      cbn [ogtb ogeb or_default andb]; split_cmp; cbn [andb];
      try reflexivity; exfalso; lra.
  - intros c m20 m50 rsi h -> H1 H2 H3 H4 Hs.
    cbn [Close MA20 MA50 RSI14 MACDHist or_default]. rewrite Hs.
    split_cmp; cbn [andb]; try reflexivity; exfalso; try lra; discriminate.
Qed.

(** C3 (as amended): on an empty frame the classifier fails with the generic
    pandas [IndexError] of [df.iloc[-1]], the same error as any out-of-range
    positional lookup; on every non-empty frame it returns a result. *)
Theorem traffic_light_empty_and_nonempty :
  (forall news_items : list NewsItem,
     traffic_light_logic [] news_items
     = Raise (IndexError "single positional indexer is out-of-bounds")) /\
  (forall (df0 : DataFrame) (r : Row) (news_items : list NewsItem),
     exists out, traffic_light_logic (df0 ++ [r]) news_items = Ok out).
Proof.
  split.
  - intros ns. reflexivity.
  - intros df0 r ns. unfold traffic_light_logic. rewrite iloc_last_snoc.
    eexists; reflexivity.
Qed.

(** C3 counterexample: the empty frame yields no distinct precondition error;
    the only error it can raise is pandas' out-of-bounds [IndexError], which
    is also what [build_plan_text] raises on it. *)
Lemma traffic_light_empty_generic_error :
  traffic_light_logic [] [] = Raise (IndexError "single positional indexer is out-of-bounds") /\
  (forall e, traffic_light_logic [] [] = Raise e ->
             e = IndexError "single positional indexer is out-of-bounds") /\
  build_plan_text [] = Raise (IndexError "single positional indexer is out-of-bounds").
Proof.
  split; [reflexivity|split; [|reflexivity]].
  intros e H. cbv in H. injection H as <-. reflexivity.
Qed.

(** C4: on every non-empty frame the classifier returns a result (also on a
    one-row frame), and an undefined latest MA20 / MA50 is replaced by the
    latest close, RSI14 by 50, MACDHist by 0 and ATR14 by 0. *)
Theorem traffic_light_defaults :
  forall (df0 : DataFrame) (r : Row) (news_items : list NewsItem),
  exists out : TrafficLight,
    traffic_light_logic (df0 ++ [r]) news_items = Ok out /\
    b_close (bullets out) = Close r /\
    b_ma20 (bullets out) = match MA20 r with Some v => v | None => Close r end /\
    b_ma50 (bullets out) = match MA50 r with Some v => v | None => Close r end /\
    b_rsi14 (bullets out) = match RSI14 r with Some v => v | None => 50 end /\
    b_macd_hist (bullets out) = match MACDHist r with Some v => v | None => 0 end /\
    b_atr14 (bullets out) = match ATR14 r with Some v => v | None => 0 end.
Proof.
  intros df0 r ns. unfold traffic_light_logic. rewrite iloc_last_snoc.
  eexists. split; [reflexivity|].
  destruct r as [c m20 m50 rsi h a]; cbn.
  repeat split.
Qed.

(** The volatility label of a classifier result (its third driver). *)
Definition volatility_label (out : TrafficLight) : string :=
  nth 2 (map signal (drivers out)) "".

(** C8: on every non-empty frame the Volatility driver is "High" iff the
    frame has at least 50 rows and the latest (defaulted) ATR14 exceeds the
    50-period rolling mean of the ATR14 column; with fewer than 50 rows it
    is "Normal". *)
Theorem volatility_driver :
  forall (df0 : DataFrame) (r : Row) (news_items : list NewsItem),
  exists out : TrafficLight,
    traffic_light_logic (df0 ++ [r]) news_items = Ok out /\
    (volatility_label out = "High" <->
       (50 <= length (df0 ++ [r]))%nat /\
       exists m, last (rolling_mean 50 (map ATR14 (df0 ++ [r]))) None = Some m /\
                 m < or_default (ATR14 r) 0) /\
    ((length (df0 ++ [r]) < 50)%nat -> volatility_label out = "Normal").
Proof.
  intros df0 r ns. unfold traffic_light_logic. rewrite iloc_last_snoc.
  eexists. split; [reflexivity|].
  unfold volatility_label; cbn [drivers map nth signal].
  unfold atr_mean_50.
  set (a := or_default (ATR14 r) 0).
  destruct (Nat.leb 50 (length (df0 ++ [r]))) eqn:L.
  - apply Nat.leb_le in L.
    destruct (last (rolling_mean 50 (map ATR14 (df0 ++ [r]))) None) as [m|] eqn:M;
      cbn [volatility_signal].
    + split_cmp; (split; [split|]).
      * intros _. split; [exact L|]. exists m. split; [reflexivity|exact E].
      * intros _. reflexivity.
      * intros H. lia.
      * intro H. discriminate H.
      * intros [_ [m' [Hm Hlt]]]. injection Hm as <-.
        exfalso. lra.
      * intros H. lia.
    + split; [split|].
      * intro H. discriminate H.
      * intros [_ [m' [Hm _]]]. discriminate Hm.
      * intros H. lia.
  - apply Nat.leb_gt in L. cbn [volatility_signal]. split_cmp.
    + exfalso. lra.
    + split; [split|].
      * intro H. discriminate H.
      * intros [H _]. lia.
      * intros _. reflexivity.
Qed.

(** C7: the plan builder puts R1 = close + 0.8 ATR14 and S1 = close - 0.8 ATR14
    (latest row, ATR14 taken as 0 when undefined, so R1 = S1 = close then);
    close 2000 and ATR14 10 give R1 = 2008 and S1 = 1992. *)
Theorem plan_levels :
  (forall (df0 : DataFrame) (r : Row),
     exists p, build_plan_text (df0 ++ [r]) = Ok p /\
       r1 p == Close r + (8 # 10) * or_default (ATR14 r) 0 /\
       s1 p == Close r - (8 # 10) * or_default (ATR14 r) 0) /\
  (forall (df0 : DataFrame) c m20 m50 rsi h,
     exists p, build_plan_text (df0 ++ [mkRow c m20 m50 rsi h None]) = Ok p /\
       r1 p == c /\ s1 p == c) /\
  (exists p, build_plan_text [mkRow 2000 None None None None (Some 10)] = Ok p /\
       r1 p == 2008 /\ s1 p == 1992).
Proof.
  split; [|split].
  - intros df0 r. unfold build_plan_text. rewrite iloc_last_snoc.
    eexists; split; [reflexivity|]. cbn [r1 s1]. split; reflexivity.
  - intros df0 c m20 m50 rsi h. unfold build_plan_text. rewrite iloc_last_snoc.
    eexists; split; [reflexivity|]. cbn. split; ring.
  - eexists; split; [reflexivity|]. split; reflexivity.
Qed.

(** ** Indicator lemmas *)

(** Every defined entry satisfies [P]. *)
Definition opt_all (P : Q -> Prop) (o : option Q) : Prop :=
  match o with
  | Some v => P v
  | None => True
  end.

Lemma Forall_firstn_gen {A : Type} (P : A -> Prop) (n : nat) (l : list A) :
  Forall P l -> Forall P (firstn n l).
Proof.
  revert l; induction n as [|n IH]; intros [|x l] H; simpl; try constructor.
  - inversion H; assumption.
  - inversion H; auto.
Qed.

Lemma Forall_skipn_gen {A : Type} (P : A -> Prop) (n : nat) (l : list A) :
  Forall P l -> Forall P (skipn n l).
Proof.
  revert l; induction n as [|n IH]; intros [|x l] H; simpl; auto.
  inversion H; auto.
Qed.

Lemma all_defined_Forall (P : Q -> Prop) (l : list (option Q)) (w : list Q) :
  all_defined l = Some w -> Forall (opt_all P) l -> Forall P w.
Proof.
  revert w; induction l as [|[x|] l IH]; intros w Hw Hl; simpl in Hw.
  - injection Hw as <-. constructor.
  - destruct (all_defined l) as [w'|] eqn:E; [|discriminate].
    injection Hw as <-. inversion Hl; subst. constructor; auto.
  - discriminate.
Qed.

Lemma Qsum_nonneg (w : list Q) : Forall (Qle 0) w -> 0 <= Qsum w.
Proof.
  induction w as [|x w IH]; intro H; simpl; [apply Qle_refl|].
  inversion H; subst. apply (Qplus_le_compat 0 x 0 (Qsum w)) in IH; auto.
Qed.

Lemma rolling_mean_nonneg (p : nat) (xs : list (option Q)) :
  Forall (opt_all (Qle 0)) xs -> Forall (opt_all (Qle 0)) (rolling_mean p xs).
Proof.
  intro H. unfold rolling_mean. apply Forall_map, Forall_forall. intros i _.
  unfold rolling_at. destruct (Nat.eqb p 0 || Nat.ltb (S i) p)%bool; [exact I|].
  destruct (all_defined _) as [w|] eqn:E; [|exact I]. simpl.
  apply Qmult_le_0_compat.
  - apply Qsum_nonneg. eapply all_defined_Forall; [exact E|].
    apply Forall_firstn_gen, Forall_skipn_gen, H.
  - apply Qinv_le_0_compat. unfold Qle; simpl. lia.
Qed.

Lemma bfill_Forall (P : Q -> Prop) (xs : list (option Q)) :
  Forall (opt_all P) xs -> Forall (opt_all P) (bfill xs).
Proof.
  induction xs as [|x r IH]; intro H; simpl; [constructor|].
  inversion H; subst. specialize (IH H3).
  destruct x as [v|]; constructor; auto.
  destruct (bfill r) as [|y r']; simpl; [exact I|]. inversion IH; assumption.
Qed.

Lemma bfill_length (xs : list (option Q)) : length (bfill xs) = length xs.
Proof.
  induction xs as [|[x|] r IH]; simpl; rewrite ?IH; reflexivity.
Qed.

(** The first defined value of a list, if any. *)
Definition first_some (xs : list (option Q)) : option Q :=
  fold_right (fun o acc => match o with Some _ => o | None => acc end) None xs.

Lemma hd_bfill (xs : list (option Q)) : hd None (bfill xs) = first_some xs.
Proof.
  induction xs as [|[x|] r IH]; simpl; [reflexivity|reflexivity|exact IH].
Qed.

(** [bfill] puts at each position the first defined value at or after it. *)
Lemma bfill_nth (xs : list (option Q)) (i : nat) :
  (i < length xs)%nat -> nth_error (bfill xs) i = Some (first_some (skipn i xs)).
Proof.
  revert i; induction xs as [|x r IH]; intros i Hi; simpl in Hi; [lia|].
  destruct i as [|i].
  - simpl. destruct x as [v|]; simpl; [reflexivity|]. rewrite hd_bfill. reflexivity.
  - assert (Hr : nth_error (bfill (x :: r)) (S i) = nth_error (bfill r) i)
      by (simpl; destruct x; reflexivity).
    rewrite Hr. apply IH. lia.
Qed.

Lemma first_some_None_skipn (xs : list (option Q)) (k : nat) :
  first_some xs = None -> first_some (skipn k xs) = None.
Proof.
  revert k; induction xs as [|[x|] r IH]; intros k H; simpl in H.
  - destruct k; reflexivity.
  - discriminate.
  - destruct k as [|k]; [exact H|]. apply IH, H.
Qed.

(** Back-filling leaves no undefined entry before a defined one. *)
Lemma bfill_no_gap (xs : list (option Q)) (i j : nat) (v : Q) :
  (i <= j)%nat -> nth_error (bfill xs) j = Some (Some v) ->
  exists v', nth_error (bfill xs) i = Some (Some v').
Proof.
  intros Hij Hj.
  assert (Hjl : (j < length xs)%nat).
  { rewrite <- (bfill_length xs). apply nth_error_Some. rewrite Hj. discriminate. }
  rewrite bfill_nth in Hj by exact Hjl. injection Hj as Hj.
  rewrite bfill_nth by lia.
  destruct (first_some (skipn i xs)) as [w|] eqn:E; [exists w; reflexivity|].
  exfalso.
  apply (first_some_None_skipn _ (j - i)) in E.
  rewrite skipn_skipn, Nat.sub_add in E by exact Hij. congruence.
Qed.

Lemma gain_of_nonneg (d : option Q) : opt_all (Qle 0) (Indicators.gain_of d).
Proof.
  destruct d as [x|]; simpl; [|apply Qle_refl].
  destruct (Qgtb x 0) eqn:E; simpl; [apply Qgtb_true in E; lra | apply Qle_refl].
Qed.

Lemma loss_of_nonneg (d : option Q) : opt_all (Qle 0) (Indicators.loss_of d).
Proof.
  destruct d as [x|]; simpl; [|lra].
  destruct (Qgtb 0 x) eqn:E; simpl; [apply Qgtb_true in E; lra | lra].
Qed.

Lemma avg_gain_nonneg (close : list Q) (p : nat) :
  Forall (opt_all (Qle 0)) (Indicators.avg_gain close p).
Proof.
  apply rolling_mean_nonneg, Forall_map, Forall_forall. intros d _. apply gain_of_nonneg.
Qed.

Lemma avg_loss_nonneg (close : list Q) (p : nat) :
  Forall (opt_all (Qle 0)) (Indicators.avg_loss close p).
Proof.
  apply rolling_mean_nonneg, Forall_map, Forall_forall. intros d _. apply loss_of_nonneg.
Qed.

(** [100 - 100 / (1 + rs)] lies in [0, 100] when [rs >= 0]. *)
Lemma rsi_formula_bound (rs : Q) : 0 <= rs -> 0 <= 100 - 100 / (1 + rs) <= 100.
Proof.
  intro Hrs.
  assert (Hnz : ~ 1 + rs == 0) by lra.
  pose proof (Qmult_inv_r (1 + rs) Hnz) as Hinv.
  assert (Hq : 0 <= / (1 + rs)) by (apply Qinv_le_0_compat; lra).
  assert (Hp : 0 <= rs * / (1 + rs)) by (apply Qmult_le_0_compat; assumption).
  assert (Hle : / (1 + rs) <= 1).
  { assert (Hs : / (1 + rs) + rs * / (1 + rs) == 1)
      by (transitivity ((1 + rs) * / (1 + rs)); [ring | exact Hinv]).
    lra. }
  unfold Qdiv. lra.
Qed.

Lemma rsi_point_bound (g l : option Q) :
  opt_all (Qle 0) g -> opt_all (Qle 0) l ->
  opt_all (fun v => 0 <= v <= 100) (Indicators.rsi_point g (Indicators.replace0 l)).
Proof.
  intros Hg Hl.
  destruct g as [a|], l as [b|]; simpl in *; try exact I.
  destruct (Qeq_bool b 0) eqn:E; simpl; [exact I|].
  apply rsi_formula_bound.
  assert (Hb : ~ b == 0) by (intro H; apply Qeq_bool_iff in H; congruence).
  assert (Hb' : 0 < b) by (apply Qle_lteq in Hl as [H|H]; [exact H | exfalso; apply Hb; symmetry; exact H]).
  apply Qmult_le_0_compat; [exact Hg|]. apply Qinv_le_0_compat. lra.
Qed.

Lemma rsi_out_bound (close : list Q) (p : nat) :
  Forall (opt_all (fun v => 0 <= v <= 100)) (Indicators.rsi_out close p).
Proof.
  unfold Indicators.rsi_out. apply Forall_map, Forall_forall.
  intros [g l] Hin. simpl.
  apply rsi_point_bound.
  - apply in_combine_l in Hin. eapply Forall_forall; [apply avg_gain_nonneg|exact Hin].
  - apply in_combine_r in Hin. eapply Forall_forall; [apply avg_loss_nonneg|exact Hin].
Qed.

Lemma rolling_mean_length (p : nat) (xs : list (option Q)) :
  length (rolling_mean p xs) = length xs.
Proof. unfold rolling_mean. rewrite length_map, length_seq. reflexivity. Qed.

Lemma diff_length (xs : list Q) : length (Indicators.diff xs) = length xs.
Proof.
  destruct xs as [|x r]; [reflexivity|]. unfold Indicators.diff. cbn [length].
  rewrite length_map, length_combine. cbn [length]. lia.
Qed.

Lemma avg_gain_length (close : list Q) (p : nat) :
  length (Indicators.avg_gain close p) = length close.
Proof.
  unfold Indicators.avg_gain. rewrite rolling_mean_length, length_map. apply diff_length.
Qed.

Lemma avg_loss_length (close : list Q) (p : nat) :
  length (Indicators.avg_loss close p) = length close.
Proof.
  unfold Indicators.avg_loss. rewrite rolling_mean_length, length_map. apply diff_length.
Qed.

Lemma rsi_out_length (close : list Q) (p : nat) :
  length (Indicators.rsi_out close p) = length close.
Proof.
  unfold Indicators.rsi_out. rewrite length_map, length_combine, avg_gain_length,
    avg_loss_length. lia.
Qed.

Lemma nth_error_combine {A B : Type} (a : list A) (b : list B) (i : nat) :
  nth_error (combine a b) i =
  match nth_error a i, nth_error b i with
  | Some x, Some y => Some (x, y)
  | _, _ => None
  end.
Proof.
  revert b i; induction a as [|x a IH]; intros [|y b] [|i]; simpl; auto.
  destruct (nth_error a i); reflexivity.
Qed.

(** A zero average loss makes the RSI value at that position undefined. *)
Lemma rsi_out_zero_loss (close : list Q) (p i : nat) (l : Q) :
  nth_error (Indicators.avg_loss close p) i = Some (Some l) -> l == 0 ->
  nth_error (Indicators.rsi_out close p) i = Some None.
Proof.
  intros Hl H0.
  assert (Hi : (i < length (Indicators.avg_gain close p))%nat).
  { rewrite avg_gain_length, <- (avg_loss_length close p).
    apply nth_error_Some. rewrite Hl. discriminate. }
  apply nth_error_Some in Hi.
  destruct (nth_error (Indicators.avg_gain close p) i) as [g|] eqn:Hg; [|congruence].
  unfold Indicators.rsi_out. rewrite nth_error_map, nth_error_combine, Hg, Hl. simpl.
  apply Qeq_bool_iff in H0. rewrite H0. destruct g; reflexivity.
Qed.

(** ** ATR lemmas *)

Lemma true_range_first (b : Indicators.Bar) :
  Indicators.true_range b None = Some (Indicators.High b - Indicators.Low b).
Proof. reflexivity. Qed.

Lemma true_range_nonneg (b : Indicators.Bar) (pc : Q) :
  opt_all (Qle 0) (Indicators.true_range b (Some pc)).
Proof.
  unfold Indicators.true_range, Indicators.nanmax, Indicators.opt_abs.
  cbn [fold_left option_map opt_all].
  eapply Qle_trans; [apply Qabs_nonneg|]. apply Q.le_max_r.
Qed.

Lemma true_ranges_nonneg (b0 : Indicators.Bar) (rest : list Indicators.Bar) :
  Indicators.Low b0 <= Indicators.High b0 ->
  Forall (opt_all (Qle 0))
    (map (fun p => Indicators.true_range (fst p) (snd p))
         (combine (b0 :: rest) (Indicators.shift1 (map Indicators.Close (b0 :: rest))))).
Proof.
  intro H0. simpl. constructor.
  - simpl. lra.
  - apply Forall_map, Forall_forall. intros [b o] Hin. simpl.
    apply in_combine_r, in_map_iff in Hin. destruct Hin as [pc [<- _]].
    apply true_range_nonneg.
Qed.

(** ** Claims about the indicator engine *)

(** C5 (as amended): every defined value of the RSI14 column lies in
    [0, 100], and back-filling leaves no undefined entry before a defined
    one; undefined entries can remain after the last defined value. *)
Theorem rsi14_bounds :
  forall close : list Q,
    Forall (opt_all (fun v => 0 <= v <= 100)) (Indicators.rsi close 14) /\
    (forall (i j : nat) (v : Q), (i <= j)%nat ->
       nth_error (Indicators.rsi close 14) j = Some (Some v) ->
       exists v', nth_error (Indicators.rsi close 14) i = Some (Some v')).
Proof.
  intro close. split.
  - apply bfill_Forall, rsi_out_bound.
  - intros i j v. apply bfill_no_gap.
Qed.

(** A strictly rising series of 16 closes. *)
Definition rising16 : list Q := map (fun n => inject_Z (Z.of_nat n)) (seq 1 16).

(** C5 counterexample: [rising16] has price changes, yet its RSI14 column is
    entirely undefined (no step has a loss, so every average loss is 0). *)
Lemma rsi14_rising_undefined :
  nth_error rising16 0 <> nth_error rising16 1 /\
  Indicators.rsi rising16 14 = repeat None 16.
Proof.
  split; [vm_compute; intro H; discriminate H | vm_compute; reflexivity].
Qed.

(** C6 (as amended): where the average loss is 0 the RSI value before
    back-filling is undefined (not infinite), and back-filling puts at every
    position the first defined value at or after it, so an undefined value
    remains only when no later value is defined. *)
Theorem rsi_zero_loss_and_bfill :
  forall close : list Q,
    (forall (i : nat) (l : Q),
       nth_error (Indicators.avg_loss close 14) i = Some (Some l) -> l == 0 ->
       nth_error (Indicators.rsi_out close 14) i = Some None) /\
    (forall i : nat, (i < length close)%nat ->
       nth_error (Indicators.rsi close 14) i
       = Some (first_some (skipn i (Indicators.rsi_out close 14)))).
Proof.
  intro close. split.
  - intros i l. apply rsi_out_zero_loss.
  - intros i Hi. unfold Indicators.rsi. apply bfill_nth.
    rewrite rsi_out_length. exact Hi.
Qed.

(** One loss, fourteen gains, one loss: 17 closes. *)
Definition dip_rise_dip : list Q :=
  [10; 9; 10; 11; 12; 13; 14; 15; 16; 17; 18; 19; 20; 21; 22; 23; 22].

(** C6 counterexample: at position 15 of [dip_rise_dip] the average loss is
    0, the RSI is already defined at position 13, yet position 15 is defined
    in the output: back-filling fills it with the value of position 16. *)
Lemma rsi_zero_loss_filled :
  exists l v13 v15,
    nth_error (Indicators.avg_loss dip_rise_dip 14) 15 = Some (Some l) /\ l == 0 /\
    nth_error (Indicators.rsi_out dip_rise_dip 14) 15 = Some None /\
    nth_error (Indicators.rsi dip_rise_dip 14) 13 = Some (Some v13) /\
    nth_error (Indicators.rsi dip_rise_dip 14) 15 = Some (Some v15).
Proof.
  do 3 eexists. split; [vm_compute; reflexivity|].
  split; [vm_compute; reflexivity|].
  split; [vm_compute; reflexivity|].
  split; vm_compute; reflexivity.
Qed.

(** C9 (as amended): when the first row has High >= Low, every defined ATR14
    value is >= 0 (from the second row on the true range includes absolute
    differences; on the first row it is High - Low). *)
Theorem atr14_nonneg :
  forall (b0 : Indicators.Bar) (rest : list Indicators.Bar),
    Indicators.Low b0 <= Indicators.High b0 ->
    Forall (opt_all (Qle 0)) (Indicators.atr (b0 :: rest) 14).
Proof.
  intros b0 rest H0. unfold Indicators.atr.
  apply bfill_Forall, rolling_mean_nonneg, true_ranges_nonneg, H0.
Qed.

Lemma atr14_nonneg_witness :
  Indicators.Low (Indicators.mkBar 1 2 1 1) <= Indicators.High (Indicators.mkBar 1 2 1 1) /\
  Forall (opt_all (Qle 0))
    (Indicators.atr (Indicators.mkBar 1 2 1 1 :: repeat (Indicators.mkBar 1 3 1 2) 13) 14) /\
  nth_error (Indicators.atr (Indicators.mkBar 1 2 1 1 :: repeat (Indicators.mkBar 1 3 1 2) 13) 14) 13
  = Some (Some (27 # 14)).
Proof.
  assert (H0 : Indicators.Low (Indicators.mkBar 1 2 1 1) <= Indicators.High (Indicators.mkBar 1 2 1 1))
    by (vm_compute; intro H; discriminate H).
  split; [exact H0|]. split.
  - exact (atr14_nonneg (Indicators.mkBar 1 2 1 1) (repeat (Indicators.mkBar 1 3 1 2) 13) H0).
  - vm_compute. reflexivity.
Defined.

(** A first row with High < Low followed by 13 flat rows. *)
Definition inverted_first_bar : list Indicators.Bar :=
  Indicators.mkBar 1 0 1 1 :: repeat (Indicators.mkBar 1 1 1 1) 13.

(** C9 counterexample: with High < Low on the first row, ATR14 is negative. *)
Lemma atr14_negative :
  exists v, nth_error (Indicators.atr inverted_first_bar 14) 13 = Some (Some v) /\ v < 0.
Proof.
  eexists. split; [vm_compute; reflexivity|]. vm_compute. reflexivity.
Qed.

(** * Further code: [news.py] *)

Module News.

(** [str.isspace] on an ASCII character: \t \n \v \f \r (9-13), the
    separators \x1c-\x1f (28-31) and the space (32). Both [re]'s [\s] and
    [str.strip()] use this class for [str] text. *)
Definition is_space (c : ascii) : bool :=
  let n := nat_of_ascii c in
  ((Nat.leb 9 n && Nat.leb n 13) || (Nat.leb 28 n && Nat.leb n 32))%bool.

(** [re.sub(r"\s+", " ", text)]: each maximal run of whitespace becomes one
    space; [in_run] says whether the previous character was whitespace. *)
Fixpoint collapse_ws (in_run : bool) (l : list ascii) : list ascii :=
  match l with
  | [] => []
  | c :: r =>
      if is_space c
      then (if in_run then collapse_ws true r else " "%char :: collapse_ws true r)
      else c :: collapse_ws false r
  end.

(** [str.lstrip()] *)
Fixpoint lstrip (l : list ascii) : list ascii :=
  match l with
  | [] => []
  | c :: r => if is_space c then lstrip r else l
  end.

(** [str.rstrip()] *)
Definition rstrip (l : list ascii) : list ascii := rev (lstrip (rev l)).

(** [str.strip()] *)
Definition strip (l : list ascii) : list ascii := rstrip (lstrip l).

(** [_clean(text)]: [None] and [""] give [""]. *)
Definition _clean (text : option string) : string :=
  match text with
  | None => ""
  | Some EmptyString => ""
  | Some t => string_of_list_ascii (strip (collapse_ws false (list_ascii_of_string t)))
  end.

(** No two adjacent whitespace characters. *)
Definition NoDoubleSpace (l : list ascii) : Prop :=
  forall l1 a b l2, l = l1 ++ a :: b :: l2 -> is_space a = false \/ is_space b = false.

(** The shape of [_clean]'s output: the only whitespace is the plain
    space, never two in a row, none at either end. *)
Definition CleanForm (l : list ascii) : Prop :=
  Forall (fun c => is_space c = true -> c = " "%char) l /\
  NoDoubleSpace l /\
  match l with c :: _ => is_space c = false | [] => True end /\
  match rev l with c :: _ => is_space c = false | [] => True end.

Definition head_not_space (l : list ascii) : Prop :=
  match l with c :: _ => is_space c = false | [] => True end.

Lemma NoDoubleSpace_nil : NoDoubleSpace [].
Proof. intros l1 a b l2 H. destruct l1; discriminate. Qed.

Lemma NoDoubleSpace_cons (c : ascii) (r : list ascii) :
  NoDoubleSpace (c :: r) <-> NoDoubleSpace r /\ (is_space c = false \/ head_not_space r).
Proof.
  split.
  - intro H. split.
    + intros l1 a b l2 E. apply (H (c :: l1) a b l2). rewrite E. reflexivity.
    + destruct r as [|d r]; [right; exact I|].
      destruct (H [] c d r eq_refl) as [H1|H1]; [left|right]; exact H1.
  - intros [Hr Hc] l1 a b l2 E. destruct l1 as [|x l1].
    + injection E as -> E. subst r. destruct Hc as [Hc|Hc]; [left|right]; exact Hc.
    + injection E as -> E. exact (Hr l1 a b l2 E).
Qed.

Lemma NoDoubleSpace_rev (l : list ascii) : NoDoubleSpace l -> NoDoubleSpace (rev l).
Proof.
  intros H l1 a b l2 E.
  assert (E' : l = rev l2 ++ b :: a :: rev l1).
  { rewrite <- (rev_involutive l), E. rewrite rev_app_distr. simpl.
    rewrite <- !app_assoc. reflexivity. }
  destruct (H _ _ _ _ E') as [H1|H1]; [right|left]; exact H1.
Qed.

Lemma NoDoubleSpace_app_r (l1 l2 : list ascii) :
  NoDoubleSpace (l1 ++ l2) -> NoDoubleSpace l2.
Proof.
  intros H m1 a b m2 E. apply (H (l1 ++ m1) a b m2). rewrite E, app_assoc. reflexivity.
Qed.

Lemma lstrip_suffix (l : list ascii) : exists pre, l = pre ++ lstrip l.
Proof.
  induction l as [|c r [pre IH]]; [exists []; reflexivity|]. simpl.
  destruct (is_space c); [exists (c :: pre); rewrite IH at 1; reflexivity|].
  exists []; reflexivity.
Qed.

Lemma lstrip_head (l : list ascii) : head_not_space (lstrip l).
Proof.
  induction l as [|c r IH]; simpl; [exact I|].
  destruct (is_space c) eqn:E; [exact IH|exact E].
Qed.

Lemma lstrip_id (l : list ascii) : head_not_space l -> lstrip l = l.
Proof. destruct l as [|c r]; simpl; [reflexivity|]. intros ->. reflexivity. Qed.

Lemma lstrip_app_nonspace (ys zs : list ascii) (c : ascii) :
  is_space c = false -> lstrip (ys ++ c :: zs) = lstrip ys ++ c :: zs.
Proof.
  intro Hc. induction ys as [|y ys IH]; simpl; [rewrite Hc; reflexivity|].
  destruct (is_space y); [exact IH|reflexivity].
Qed.

Lemma rstrip_cons_nonspace (c : ascii) (r : list ascii) :
  is_space c = false -> rstrip (c :: r) = c :: rstrip r.
Proof.
  intro Hc. unfold rstrip. simpl. rewrite lstrip_app_nonspace by exact Hc.
  rewrite rev_app_distr. reflexivity.
Qed.

Lemma rstrip_nil_or_head (l : list ascii) :
  head_not_space l -> head_not_space (rstrip l).
Proof.
  destruct l as [|c r]; simpl; [intros _; exact I|].
  intro Hc. rewrite rstrip_cons_nonspace by exact Hc. exact Hc.
Qed.

Lemma Forall_rev_iff {A : Type} (P : A -> Prop) (l : list A) :
  Forall P (rev l) <-> Forall P l.
Proof.
  split; intro H; apply Forall_forall; intros x Hx;
    eapply Forall_forall; try exact H; [apply in_rev; rewrite rev_involutive|apply in_rev]; exact Hx.
Qed.

Lemma Forall_lstrip (P : ascii -> Prop) (l : list ascii) : Forall P l -> Forall P (lstrip l).
Proof.
  intro H. destruct (lstrip_suffix l) as [pre E]. rewrite E in H.
  apply Forall_app in H. apply H.
Qed.

Lemma collapse_spaces (b : bool) (l : list ascii) :
  Forall (fun c => is_space c = true -> c = " "%char) (collapse_ws b l).
Proof.
  revert b; induction l as [|c r IH]; intro b; simpl; [constructor|].
  destruct (is_space c) eqn:E; [destruct b|]; try constructor; auto; congruence.
Qed.

Lemma collapse_nodouble (l : list ascii) :
  forall b, NoDoubleSpace (collapse_ws b l) /\ (b = true -> head_not_space (collapse_ws b l)).
Proof.
  induction l as [|c r IH]; intro b; simpl.
  - split; [apply NoDoubleSpace_nil|intros _; exact I].
  - destruct (IH true) as [Ht Hth], (IH false) as [Hf _].
    destruct (is_space c) eqn:E; [destruct b|].
    + split; [exact Ht|intros _; apply Hth; reflexivity].
    + split; [|discriminate]. apply NoDoubleSpace_cons. split; [exact Ht|].
      right. apply Hth; reflexivity.
    + split; [|intros _; exact E]. apply NoDoubleSpace_cons. split; [exact Hf|left; exact E].
Qed.

End News.

(** ** Properties of [news._clean] *)

Lemma strip_clean_form (l : list ascii) :
  Forall (fun c => News.is_space c = true -> c = " "%char) l -> News.NoDoubleSpace l ->
  News.CleanForm (News.strip l).
Proof.
  intros Hs Hd. unfold News.strip, News.rstrip.
  destruct (News.lstrip_suffix l) as [p1 E1].
  destruct (News.lstrip_suffix (rev (News.lstrip l))) as [p2 E2].
  assert (Hd1 : News.NoDoubleSpace (News.lstrip l))
    by (apply (News.NoDoubleSpace_app_r p1); rewrite <- E1; exact Hd).
  assert (Hd2 : News.NoDoubleSpace (News.lstrip (rev (News.lstrip l)))).
  { apply (News.NoDoubleSpace_app_r p2). rewrite <- E2. apply News.NoDoubleSpace_rev, Hd1. }
  split; [|split; [|split]].
  - apply News.Forall_rev_iff. apply News.Forall_lstrip. apply News.Forall_rev_iff. apply News.Forall_lstrip, Hs.
  - apply News.NoDoubleSpace_rev, Hd2.
  - apply (News.rstrip_nil_or_head (News.lstrip l)), News.lstrip_head.
  - rewrite rev_involutive. apply News.lstrip_head.
Qed.

Lemma collapse_ws_id (l : list ascii) :
  Forall (fun c => News.is_space c = true -> c = " "%char) l -> News.NoDoubleSpace l ->
  forall b, (b = true -> News.head_not_space l) -> News.collapse_ws b l = l.
Proof.
  induction l as [|c r IH]; intros Hs Hd b Hb; [reflexivity|].
  inversion Hs as [|? ? Hc Hr]; subst.
  apply News.NoDoubleSpace_cons in Hd as [Hdr Hcr]. simpl.
  destruct (News.is_space c) eqn:E.
  - destruct b; [specialize (Hb eq_refl); simpl in Hb; congruence|].
    rewrite (Hc eq_refl). f_equal. apply IH; [exact Hr|exact Hdr|].
    intros _. destruct Hcr as [H|H]; [congruence|exact H].
  - f_equal. apply IH; [exact Hr|exact Hdr|discriminate].
Qed.

Lemma strip_id (l : list ascii) :
  News.head_not_space l -> News.head_not_space (rev l) -> News.strip l = l.
Proof.
  intros H1 H2. unfold News.strip, News.rstrip.
  rewrite (News.lstrip_id l H1), (News.lstrip_id (rev l) H2). apply rev_involutive.
Qed.

(** [_clean] output as a character list. *)
Lemma clean_chars (t : option string) :
  list_ascii_of_string (News._clean t) = [] \/
  list_ascii_of_string (News._clean t)
  = News.strip (News.collapse_ws false (list_ascii_of_string (match t with Some s => s | None => "" end))).
Proof.
  destruct t as [[|c s]|]; [left; reflexivity| right | left; reflexivity].
  unfold News._clean. rewrite list_ascii_of_string_of_list_ascii. reflexivity.
Qed.

Lemma clean_form :
  forall t : option string, News.CleanForm (list_ascii_of_string (News._clean t)).
Proof.
  intro t. destruct (clean_chars t) as [E|E]; rewrite E.
  - split; [constructor|split; [apply News.NoDoubleSpace_nil|split; exact I]].
  - apply strip_clean_form; [apply News.collapse_spaces|apply News.collapse_nodouble].
Qed.

(** [_clean] output: the only whitespace is the plain space, never two in a
    row, none leading or trailing; [None] and [""] give [""]. *)
Theorem clean_output_form :
  (forall t : option string, News.CleanForm (list_ascii_of_string (News._clean t))) /\
  News._clean None = "" /\ News._clean (Some "") = "".
Proof. split; [exact clean_form|split; reflexivity]. Qed.

(** Cleaning a cleaned text changes nothing. *)
Theorem clean_idempotent :
  forall t : option string, News._clean (Some (News._clean t)) = News._clean t.
Proof.
  intro t. pose proof (clean_form t) as [Hs [Hd [H1 H2]]].
  destruct (News._clean t) as [|c s] eqn:E; [reflexivity|].
  change (News._clean (Some (String c s)))
    with (string_of_list_ascii
            (News.strip (News.collapse_ws false (list_ascii_of_string (String c s))))).
  rewrite collapse_ws_id by (try exact Hs; try exact Hd; discriminate).
  rewrite strip_id by assumption.
  apply string_of_list_ascii_of_string.
Qed.

Module Rss.

(** [re.sub("<[^>]+>", "", s)]: [pending = Some b] after a ['<'] followed by
    the non-['>'] characters [b]; a ['>'] closes a tag when [b] is non-empty
    (the greedy [[^>]+] stops at the first ['>'], and may swallow ['<']).
    Text after a ['<'] that never meets a ['>'] is kept. *)
Fixpoint strip_tags_go (pending : option (list ascii)) (l : list ascii) : list ascii :=
  match pending, l with
  | None, [] => []
  | Some b, [] => "<"%char :: b
  | None, c :: r =>
      if Ascii.eqb c "<"%char then strip_tags_go (Some []) r
      else c :: strip_tags_go None r
  | Some b, c :: r =>
      if Ascii.eqb c ">"%char then
        match b with
        | [] => "<"%char :: ">"%char :: strip_tags_go None r
        | _ => strip_tags_go None r
        end
      else strip_tags_go (Some (b ++ [c])) r
  end.

Definition strip_tags (s : string) : string :=
  string_of_list_ascii (strip_tags_go None (list_ascii_of_string s)).

(** [s[:n]] on a string. *)
Definition str_slice_to (s : string) (n : nat) : string := substring 0 n s.

(** A feed entry: the fields [e.get(...)] reads ([None] when absent). *)
Record FeedEntry : Type := mkEntry {
  e_title : option string;
  e_link : option string;
  e_published : option string;
  e_updated : option string;
  e_summary : option string
}.

(** [feedparser.parse(url)]: [None] when it raised. *)
Record ParsedFeed : Type := mkFeed {
  feed_title : option string;
  entries : list FeedEntry
}.

Definition get_or (o : option string) (d : string) : string :=
  match o with Some s => s | None => d end.

(** Python's [a or b] on strings. *)
Definition str_or (a b : string) : string :=
  match a with EmptyString => b | _ => a end.

(** [l[:n]] for a Python int [n] (a negative [n] drops [-n] items from the end). *)
Definition py_slice_to {A : Type} (l : list A) (n : Z) : list A :=
  if Z.leb 0 n then firstn (Z.to_nat n) l
  else firstn (Z.to_nat (Z.of_nat (length l) + n)) l.

(** The dict appended for one entry. *)
Definition rss_item (feed_url : string) (d : ParsedFeed) (e : FeedEntry) : NewsItem :=
  mkNews (get_or (feed_title d) feed_url)
         (Some (News._clean (Some (get_or (e_title e) ""))))
         (get_or (e_link e) "")
         (str_or (News._clean (Some (get_or (e_published e) "")))
                 (News._clean (Some (get_or (e_updated e) ""))))
         (str_slice_to (News._clean (Some (strip_tags (get_or (e_summary e) "")))) 240).

(** [x["title"]]: every item built by [rss_item] has a title. *)
Definition item_title (x : NewsItem) : string := get_or (title x) "".

Definition item_key (x : NewsItem) : string * string := (item_title x, url x).

Definition key_eqb (k k' : string * string) : bool :=
  (String.eqb (fst k) (fst k') && String.eqb (snd k) (snd k'))%bool.

(** The de-duplication loop: skip an item whose (title, url) was seen or
    whose title is empty. *)
Fixpoint dedupe (seen : list (string * string)) (items : list NewsItem) : list NewsItem :=
  match items with
  | [] => []
  | x :: r =>
      let k := item_key x in
      if (existsb (key_eqb k) seen || String.eqb (item_title x) "")%bool
      then dedupe seen r
      else x :: dedupe (k :: seen) r
  end.

(** [fetch_news_rss(limit)] given the outcome of parsing each feed url in
    order ([None] for a feed whose parse raised: [continue]). *)
Definition fetch_news_rss (feeds : list (string * option ParsedFeed)) (limit : Z)
  : list NewsItem :=
  let items :=
    flat_map (fun f =>
                match snd f with
                | None => []
                | Some d => map (rss_item (fst f) d) (py_slice_to (entries d) limit)
                end) feeds in
  py_slice_to (dedupe [] items) limit.

End Rss.

(** ** Properties of [fetch_news_rss] *)

Lemma key_eqb_iff (k k' : string * string) : Rss.key_eqb k k' = true <-> k = k'.
Proof.
  destruct k as [a b], k' as [c d]. unfold Rss.key_eqb. simpl.
  rewrite andb_true_iff, !String.eqb_eq. split; [intros [-> ->]; reflexivity|].
  intro H; injection H as -> ->; split; reflexivity.
Qed.

Lemma existsb_key_false (k : string * string) (seen : list (string * string)) :
  existsb (Rss.key_eqb k) seen = false -> ~ In k seen.
Proof.
  intros H Hin. assert (existsb (Rss.key_eqb k) seen = true); [|congruence].
  apply existsb_exists. exists k. split; [exact Hin|]. apply key_eqb_iff. reflexivity.
Qed.

Lemma dedupe_keys (items : list NewsItem) :
  forall seen,
    NoDup (map Rss.item_key (Rss.dedupe seen items)) /\
    Forall (fun x => ~ In (Rss.item_key x) seen) (Rss.dedupe seen items).
Proof.
  induction items as [|x r IH]; intro seen; simpl; [split; constructor|].
  destruct (existsb (Rss.key_eqb (Rss.item_key x)) seen) eqn:E1; simpl; [apply IH|].
  destruct (String.eqb (Rss.item_title x) "") eqn:E2; simpl; [apply IH|].
  destruct (IH (Rss.item_key x :: seen)) as [Hnd Hf].
  split.
  - constructor; [|exact Hnd].
    intro Hin. apply in_map_iff in Hin as [y [Hy Hiny]].
    eapply Forall_forall in Hf; [|exact Hiny]. apply Hf. left. symmetry. exact Hy.
  - constructor; [apply existsb_key_false, E1|].
    eapply Forall_impl; [|exact Hf]. intros y Hy Hin. apply Hy. right. exact Hin.
Qed.

Lemma dedupe_sub (items : list NewsItem) (seen : list (string * string)) :
  Forall (fun x => In x items /\ Rss.item_title x <> "") (Rss.dedupe seen items).
Proof.
  revert seen; induction items as [|x r IH]; intro seen; simpl; [constructor|].
  destruct (existsb _ seen || String.eqb (Rss.item_title x) "")%bool eqn:E.
  - eapply Forall_impl; [|apply IH]. intros y [H1 H2]. split; [right|]; assumption.
  - apply orb_false_iff in E as [_ E]. constructor.
    + split; [left; reflexivity|]. intro H. rewrite H in E. discriminate.
    + eapply Forall_impl; [|apply IH]. intros y [H1 H2]. split; [right|]; assumption.
Qed.

Lemma py_slice_to_prefix {A : Type} (l : list A) (n : Z) :
  exists k, Rss.py_slice_to l n = firstn k l.
Proof. unfold Rss.py_slice_to. destruct (Z.leb 0 n); eexists; reflexivity. Qed.

Lemma Forall_firstn_any {A : Type} (P : A -> Prop) (k : nat) (l : list A) :
  Forall P l -> Forall P (firstn k l).
Proof.
  intro H. rewrite <- (firstn_skipn k l) in H. apply Forall_app in H. apply H.
Qed.

Lemma NoDup_map_firstn {A B : Type} (f : A -> B) (k : nat) (l : list A) :
  NoDup (map f l) -> NoDup (map f (firstn k l)).
Proof.
  intro H. rewrite <- (firstn_skipn k l), map_app in H.
  apply NoDup_app_remove_r in H. exact H.
Qed.

Lemma substring_length (n : nat) (s : string) : (String.length (substring 0 n s) <= n)%nat.
Proof.
  revert s; induction n as [|n IH]; intros [|c s]; simpl; try lia.
  specialize (IH s). lia.
Qed.

Lemma rss_items_shape (feeds : list (string * option Rss.ParsedFeed)) (limit : Z) (x : NewsItem) :
  In x (flat_map (fun f =>
                    match snd f with
                    | None => []
                    | Some d => map (Rss.rss_item (fst f) d) (Rss.py_slice_to (Rss.entries d) limit)
                    end) feeds) ->
  exists t, title x = Some t /\ News.CleanForm (list_ascii_of_string t) /\
            (String.length (news_summary x) <= 240)%nat.
Proof.
  intro H. apply in_flat_map in H as [[u [d|]] [_ H]]; simpl in H; [|contradiction].
  apply in_map_iff in H as [e [<- _]].
  eexists. split; [reflexivity|]. split; [apply clean_form|].
  apply substring_length.
Qed.

Lemma fetch_news_rss_props :
  forall (feeds : list (string * option Rss.ParsedFeed)) (limit : Z),
    ((0 <= limit)%Z -> (Z.of_nat (length (Rss.fetch_news_rss feeds limit)) <= limit)%Z) /\
    NoDup (map Rss.item_key (Rss.fetch_news_rss feeds limit)) /\
    Forall (fun x => exists t, title x = Some t /\ t <> "" /\
                               News.CleanForm (list_ascii_of_string t) /\
                               (String.length (news_summary x) <= 240)%nat)
           (Rss.fetch_news_rss feeds limit).
Proof.
  intros feeds limit. split; [|split].
  - intro Hl. unfold Rss.fetch_news_rss at 1. unfold Rss.py_slice_to at 1.
    apply Z.leb_le in Hl as Hb. rewrite Hb, length_firstn. lia.
  - unfold Rss.fetch_news_rss.
    match goal with |- context [Rss.py_slice_to ?l limit] =>
      destruct (py_slice_to_prefix l limit) as [k Hk]; rewrite Hk end.
    apply NoDup_map_firstn, dedupe_keys.
  - unfold Rss.fetch_news_rss.
    match goal with |- context [Rss.py_slice_to (Rss.dedupe [] ?l) limit] =>
      destruct (py_slice_to_prefix (Rss.dedupe [] l) limit) as [k Hk]; rewrite Hk;
      apply Forall_firstn_any; eapply Forall_impl; [|apply (dedupe_sub l [])] end.
    intros x [Hin Ht]. destruct (rss_items_shape _ _ _ Hin) as [t [Et [Hc Hs]]].
    exists t. split; [exact Et|]. split; [|split; assumption].
    unfold Rss.item_title in Ht. rewrite Et in Ht. exact Ht.
Qed.

(** [fetch_news_rss]: at most [limit] items (for [limit >= 0]), pairwise
    distinct (title, url) keys, and every item has a non-empty title in
    cleaned form and a summary of at most 240 characters. *)
Theorem fetch_news_rss_output :
  forall (feeds : list (string * option Rss.ParsedFeed)) (limit : Z),
    ((0 <= limit)%Z -> (Z.of_nat (length (Rss.fetch_news_rss feeds limit)) <= limit)%Z) /\
    NoDup (map Rss.item_key (Rss.fetch_news_rss feeds limit)) /\
    Forall (fun x => exists t, title x = Some t /\ t <> "" /\
                               News.CleanForm (list_ascii_of_string t) /\
                               (String.length (news_summary x) <= 240)%nat)
           (Rss.fetch_news_rss feeds limit).
Proof. exact fetch_news_rss_props. Qed.

Module Ewm.

(** [series.ewm(span=span, adjust=False).mean()] on a NaN-free series:
    [y0 = x0], [y_t = (1 - alpha) y_(t-1) + alpha x_t], [alpha = 2 / (span + 1)].
    [span] is a positive integer (the code calls it with 12, 26 and 9;
    pandas rejects [span < 1]). *)
Definition alpha (span : positive) : Q := 2 / (inject_Z (Zpos span) + 1).

Fixpoint ema_go (a prev : Q) (xs : list Q) : list Q :=
  match xs with
  | [] => []
  | x :: r => let y := (1 - a) * prev + a * x in y :: ema_go a y r
  end.

Definition ema (series : list Q) (span : positive) : list Q :=
  match series with
  | [] => []
  | x :: r => x :: ema_go (alpha span) x r
  end.

(** Element-wise [a - b] of two aligned series. *)
Definition sub_series (u v : list Q) : list Q :=
  map (fun p => fst p - snd p) (combine u v).

(** [macd(close, 12, 26, 9)]: (MACD line, signal line, histogram). *)
Definition macd (close : list Q) : list Q * list Q * list Q :=
  let macd_line := sub_series (ema close 12) (ema close 26) in
  let signal_line := ema macd_line 9 in
  let hist := sub_series macd_line signal_line in
  (macd_line, signal_line, hist).

End Ewm.

(** ** Properties of [ema] and [macd] *)

Lemma Forall2_Qeq_refl (l : list Q) : Forall2 Qeq l l.
Proof. induction l; constructor; [reflexivity|assumption]. Qed.

Lemma Forall2_Qeq_trans (l m n : list Q) :
  Forall2 Qeq l m -> Forall2 Qeq m n -> Forall2 Qeq l n.
Proof.
  intro H; revert n; induction H as [|x y l m Hxy H IH]; intros n Hmn;
    inversion Hmn; subst; constructor; [rewrite Hxy; assumption|apply IH; assumption].
Qed.

Lemma Forall2_Qeq_map_ext (f g : Q -> Q) (l : list Q) (m : list Q) :
  (forall y, f y == g y) -> Forall2 Qeq l (map f m) -> Forall2 Qeq l (map g m).
Proof.
  intros Hfg H. revert l H; induction m as [|y m IH]; intros l H; inversion H; subst;
    constructor; [rewrite <- Hfg; assumption | apply IH; assumption].
Qed.

Lemma ema_go_proper (a p p' : Q) (xs ys : list Q) :
  p == p' -> Forall2 Qeq xs ys -> Forall2 Qeq (Ewm.ema_go a p xs) (Ewm.ema_go a p' ys).
Proof.
  intros Hp H. revert p p' Hp; induction H as [|x y xs ys Hxy H IH]; intros p p' Hp;
    simpl; constructor.
  - rewrite Hp, Hxy. reflexivity.
  - apply IH. rewrite Hp, Hxy. reflexivity.
Qed.

Lemma ema_proper (xs ys : list Q) (span : positive) :
  Forall2 Qeq xs ys -> Forall2 Qeq (Ewm.ema xs span) (Ewm.ema ys span).
Proof.
  intro H. destruct H as [|x y xs ys Hxy H]; simpl; constructor; [exact Hxy|].
  apply ema_go_proper; assumption.
Qed.

Lemma ema_go_affine (a s c : Q) (xs : list Q) :
  forall p p', p' == s * p + c ->
  Forall2 Qeq (Ewm.ema_go a p' (map (fun x => s * x + c) xs))
              (map (fun y => s * y + c) (Ewm.ema_go a p xs)).
Proof.
  induction xs as [|x xs IH]; intros p p' Hp; simpl; constructor.
  - rewrite Hp. ring.
  - apply IH. rewrite Hp. ring.
Qed.

Lemma ema_affine (s c : Q) (xs : list Q) (span : positive) :
  Forall2 Qeq (Ewm.ema (map (fun x => s * x + c) xs) span)
              (map (fun y => s * y + c) (Ewm.ema xs span)).
Proof.
  destruct xs as [|x xs]; simpl; constructor; [reflexivity|].
  apply ema_go_affine. reflexivity.
Qed.

Lemma sub_series_affine (s c : Q) (u v u' v' : list Q) :
  Forall2 Qeq u (map (fun y => s * y + c) u') ->
  Forall2 Qeq v (map (fun y => s * y + c) v') ->
  Forall2 Qeq (Ewm.sub_series u v) (map (fun y => s * y + 0) (Ewm.sub_series u' v')).
Proof.
  intro Hu. revert v v'.
  remember (map (fun y => s * y + c) u') as mu eqn:Emu.
  revert u' Emu. induction Hu as [|x y u mu' Hxy Hu IH]; intros u' Emu v v' Hv.
  - destruct u'; [|discriminate]. constructor.
  - destruct u' as [|x' u']; [discriminate|]. simpl in Emu. injection Emu as Ey Emu.
    remember (map (fun y => s * y + c) v') as mv eqn:Emv.
    destruct Hv as [|z w v mv' Hzw Hv].
    + destruct v'; [|discriminate]. constructor.
    + destruct v' as [|z' v']; [discriminate|]. simpl in Emv. injection Emv as Ew Emv.
      unfold Ewm.sub_series. simpl. constructor.
      * rewrite Hxy, Hzw, Ey, Ew. ring.
      * apply (IH u' Emu v v'). rewrite <- Emv. exact Hv.
Qed.

Lemma macd_affine_gen :
  forall (s c : Q) (close' close : list Q),
    Forall2 Qeq close' (map (fun x => s * x + c) close) ->
    Forall2 Qeq (fst (fst (Ewm.macd close'))) (map (fun y => s * y) (fst (fst (Ewm.macd close)))) /\
    Forall2 Qeq (snd (fst (Ewm.macd close'))) (map (fun y => s * y) (snd (fst (Ewm.macd close)))) /\
    Forall2 Qeq (snd (Ewm.macd close')) (map (fun y => s * y) (snd (Ewm.macd close))).
Proof.
  intros s c close' close H. unfold Ewm.macd; cbn [fst snd].
  assert (E12 : Forall2 Qeq (Ewm.ema close' 12) (map (fun y => s * y + c) (Ewm.ema close 12)))
    by (eapply Forall2_Qeq_trans; [apply ema_proper, H | apply ema_affine]).
  assert (E26 : Forall2 Qeq (Ewm.ema close' 26) (map (fun y => s * y + c) (Ewm.ema close 26)))
    by (eapply Forall2_Qeq_trans; [apply ema_proper, H | apply ema_affine]).
  pose proof (sub_series_affine s c _ _ _ _ E12 E26) as Hl.
  set (l := Ewm.sub_series (Ewm.ema close 12) (Ewm.ema close 26)) in *.
  set (l' := Ewm.sub_series (Ewm.ema close' 12) (Ewm.ema close' 26)) in *.
  assert (Hs : Forall2 Qeq (Ewm.ema l' 9) (map (fun y => s * y + 0) (Ewm.ema l 9)))
    by (eapply Forall2_Qeq_trans; [apply ema_proper, Hl | apply ema_affine]).
  pose proof (sub_series_affine s 0 _ _ _ _ Hl Hs) as Hh.
  assert (Hz : forall y, s * y + 0 == s * y) by (intro; ring).
  split; [|split]; eapply Forall2_Qeq_map_ext; try exact Hz; assumption.
Qed.

(** [macd] commutes with an affine change of price units: if every close is
    [s * x + c] of a reference close [x], the MACD line, signal line and
    histogram are [s] times the reference ones (the offset [c] cancels). *)
Theorem macd_affine :
  forall (s c : Q) (close' close : list Q),
    Forall2 Qeq close' (map (fun x => s * x + c) close) ->
    Forall2 Qeq (fst (fst (Ewm.macd close'))) (map (fun y => s * y) (fst (fst (Ewm.macd close)))) /\
    Forall2 Qeq (snd (fst (Ewm.macd close'))) (map (fun y => s * y) (snd (fst (Ewm.macd close)))) /\
    Forall2 Qeq (snd (Ewm.macd close')) (map (fun y => s * y) (snd (Ewm.macd close))).
Proof. exact macd_affine_gen. Qed.

Lemma macd_affine_witness :
  Forall2 Qeq (map (fun x => 2 * x + 1) [1; 2; 3]) (map (fun x => 2 * x + 1) [1; 2; 3]) /\
  Forall2 Qeq (snd (Ewm.macd (map (fun x => 2 * x + 1) [1; 2; 3])))
              (map (fun y => 2 * y) (snd (Ewm.macd [1; 2; 3]))).
Proof.
  split; [apply Forall2_Qeq_refl|].
  apply (macd_affine 2 1 (map (fun x => 2 * x + 1) [1; 2; 3]) [1; 2; 3]).
  apply Forall2_Qeq_refl.
Defined.

(** A flat close series has a zero MACD line, signal line and histogram. *)
Theorem macd_flat_zero :
  forall (c : Q) (n : nat),
    Forall (fun v => v == 0) (fst (fst (Ewm.macd (repeat c n)))) /\
    Forall (fun v => v == 0) (snd (fst (Ewm.macd (repeat c n)))) /\
    Forall (fun v => v == 0) (snd (Ewm.macd (repeat c n))).
Proof.
  intros c n.
  assert (H : Forall2 Qeq (repeat c n) (map (fun x => 0 * x + c) (repeat 0 n))).
  { induction n as [|n IH]; simpl; constructor; [ring|exact IH]. }
  destruct (macd_affine_gen 0 c _ _ H) as [H1 [H2 H3]].
  assert (Z0 : forall l l', Forall2 Qeq l (map (fun y => 0 * y) l') -> Forall (fun v => v == 0) l).
  { intros l l' Hl. revert l Hl; induction l' as [|y l' IH]; intros l Hl;
      inversion Hl as [|a b la lb Hab Hrest]; subst.
    - constructor.
    - constructor; [rewrite Hab; ring | apply IH; exact Hrest]. }
  split; [|split]; eapply Z0; eassumption.
Qed.

Module NewsApi.

(** One element of [data["articles"]], as the fields [a.get(...)] reads.
    [a_title], [a_publishedAt] and [a_description] are [None] when the key
    is absent or null ([_clean] maps both to [""]); [a_url] is [None] when
    the key is absent. [a_source] is [None] when [a.get("source", {})] is
    falsy, [Some None] when it is a dict without a ["name"], [Some (Some n)]
    when its name is [n]. A present url or source name is a string: the
    JSON null the code would pass on as [None] is outside this model. *)
Record Article : Type := mkArticle {
  a_source : option (option string);
  a_title : option string;
  a_url : option string;
  a_publishedAt : option string;
  a_description : option string
}.

(** Outcome of [requests.get(...)], [raise_for_status()] and [r.json()]:
    [ApiRaised] when one of them raised (nothing catches it),
    [ApiArticlesNull] when ["articles"] is null (slicing [None] raises a
    [TypeError]), [ApiData arts] otherwise, [arts = None] when ["articles"]
    is absent. *)
Inductive ApiResponse : Type :=
  | ApiRaised
  | ApiArticlesNull
  | ApiData (arts : option (list Article)).

(** [os.getenv("NEWSAPI_KEY", "").strip()] *)
Definition key_of (env : option string) : string :=
  string_of_list_ascii (News.strip (list_ascii_of_string (Rss.get_or env ""))).

Definition source_name (s : option (option string)) : string :=
  match s with
  | Some (Some n) => n
  | _ => "NewsAPI"
  end.

(** The dict appended for one article. *)
Definition api_item (a : Article) : NewsItem :=
  mkNews (source_name (a_source a))
         (Some (News._clean (a_title a)))
         (Rss.get_or (a_url a) "")
         (News._clean (a_publishedAt a))
         (Rss.str_slice_to (News._clean (a_description a)) 240).

(** [fetch_news_newsapi(limit=limit)]; [None] when it raises. *)
Definition fetch_news_newsapi (env : option string) (resp : ApiResponse) (limit : Z)
  : option (list NewsItem) :=
  if String.eqb (key_of env) "" then Some []
  else match resp with
       | ApiRaised => None
       | ApiArticlesNull => None
       | ApiData arts =>
           Some (map api_item (Rss.py_slice_to (match arts with Some l => l | None => [] end) limit))
       end.

(** [fetch_news(limit)]: NewsAPI when it returns a non-empty list, else RSS. *)
Definition fetch_news (env : option string) (resp : ApiResponse)
  (feeds : list (string * option Rss.ParsedFeed)) (limit : Z) : option (list NewsItem) :=
  match fetch_news_newsapi env resp limit with
  | None => None
  | Some [] => Some (Rss.fetch_news_rss feeds limit)
  | Some news => Some news
  end.

End NewsApi.

Module Pipeline.

(** A row of [enrich_indicators(df)]: the OHLC bar and the seven columns. *)
Record EnrichedRow : Type := mkER {
  er_bar : Indicators.Bar;
  er_MA20 : option Q;
  er_MA50 : option Q;
  er_RSI14 : option Q;
  er_MACD : Q;
  er_MACDSignal : Q;
  er_MACDHist : Q;
  er_ATR14 : option Q
}.

Definition dummy_bar : Indicators.Bar := Indicators.mkBar 0 0 0 0.

(** [enrich_indicators(df)]: each column assignment aligns on the row index. *)
Definition enrich_indicators (df : list Indicators.Bar) : list EnrichedRow :=
  let closes := map Indicators.Close df in
  let ma20 := rolling_mean 20 (map Some closes) in
  let ma50 := rolling_mean 50 (map Some closes) in
  let rsi14 := Indicators.rsi closes 14 in
  let m := Ewm.macd closes in
  let atr14 := Indicators.atr df 14 in
  map (fun i => mkER (nth i df dummy_bar) (nth i ma20 None) (nth i ma50 None)
                     (nth i rsi14 None) (nth i (fst (fst m)) 0)
                     (nth i (snd (fst m)) 0) (nth i (snd m) 0) (nth i atr14 None))
      (seq 0 (length df)).

(** The columns of an enriched row that [traffic_light_logic] and
    [build_plan_text] read. *)
Definition to_row (e : EnrichedRow) : Row :=
  mkRow (Indicators.Close (er_bar e)) (er_MA20 e) (er_MA50 e) (er_RSI14 e)
        (Some (er_MACDHist e)) (er_ATR14 e).

(** A downloaded row: any OHLC cell may be NaN. *)
Record RawBar : Type := mkRaw {
  r_open : option Q;
  r_high : option Q;
  r_low : option Q;
  r_close : option Q
}.

(** [df.dropna(subset=["Open", "High", "Low", "Close"])] *)
Definition dropna (raw : list RawBar) : list Indicators.Bar :=
  flat_map (fun r =>
              match r_open r, r_high r, r_low r, r_close r with
              | Some o, Some h, Some l, Some c => [Indicators.mkBar o h l c]
              | _, _, _, _ => []
              end) raw.

(** Outcome of one download attempt: it raised, returned [None], or returned
    a frame. *)
Inductive Fetch : Type :=
| FetchRaised
| FetchNone
| FetchFrame (rows : list RawBar).

(** [df is not None and not df.empty] *)
Definition usable (f : Fetch) : option (list RawBar) :=
  match f with
  | FetchFrame ((_ :: _) as rows) => Some rows
  | _ => None
  end.

(** [download_prices(symbol)] in [build_report.py], given the outcomes of
    [_download_yfinance] and [_download_stooq]; every exception is caught. *)
Definition download_prices (yf stooq : Fetch) : list RawBar * string :=
  match usable yf with
  | Some df => (df, "yfinance")
  | None =>
      match usable stooq with
      | Some df2 => (df2, "stooq(xauusd)")
      | None => ([], "none")
      end
  end.

(** How [main] stops: the two [RuntimeError]s it raises, the exception
    [fetch_news] lets escape from the NewsAPI request, or an exception of
    the classifier or the plan builder. *)
Inductive MainExc : Type :=
| RuntimeError (msg : string)
| NewsError
| Uncaught (e : PyExc).

(** What [main] computes before writing its outputs: the classifier result,
    the plan levels, [debug.price_source], [debug.rows] and [news]. *)
Record Report : Type := mkReport {
  rep_tl : TrafficLight;
  rep_plan : PlanLevels;
  rep_price_source : string;
  rep_rows : nat;
  rep_news : list NewsItem
}.

(** The computational core of [main()] (lines 230-253), given the symbol,
    the two download outcomes, and what [fetch_news(limit=NEWS_LIMIT)]
    sees: the NEWSAPI_KEY environment value, the NewsAPI response and the
    parsed RSS feeds. *)
Definition main_core (symbol : string) (yf stooq : Fetch)
  (env : option string) (resp : NewsApi.ApiResponse)
  (feeds : list (string * option Rss.ParsedFeed)) (news_limit : Z)
  : MainExc + Report :=
  let (raw, price_source) := download_prices yf stooq in
  match raw with
  | [] => inl (RuntimeError ("No data returned for symbol=" ++ symbol ++ " (all sources failed)"))
  | _ =>
      let df := dropna raw in
      match df with
      | [] => inl (RuntimeError "Price dataframe became empty after cleaning")
      | _ =>
          let rows := map to_row (enrich_indicators df) in
          match NewsApi.fetch_news env resp feeds news_limit with
          | None => inl NewsError
          | Some news_items =>
              match traffic_light_logic rows news_items with
              | Raise e => inl (Uncaught e)
              | Ok tl =>
                  match build_plan_text rows with
                  | Raise e => inl (Uncaught e)
                  | Ok plan => inr (mkReport tl plan price_source (length df) news_items)
                  end
              end
          end
      end
  end.

End Pipeline.

(** ** Properties of [download_prices] and [main] *)

Lemma iloc_last_nonempty {A : Type} (l : list A) :
  l <> [] -> exists x, iloc_last l = Ok x.
Proof.
  intro H. destruct (exists_last H) as [init [x ->]]. exists x. apply iloc_last_snoc.
Qed.

Lemma enrich_length (df : list Indicators.Bar) :
  length (Pipeline.enrich_indicators df) = length df.
Proof. unfold Pipeline.enrich_indicators. rewrite length_map, length_seq. reflexivity. Qed.

(** [download_prices] never raises; it reports source "none" exactly when it
    returns an empty frame, "yfinance" only with the non-empty yfinance
    frame, and "stooq(xauusd)" only with the non-empty Stooq frame after
    yfinance gave nothing usable. *)
(** [fetch_news] raises exactly when a key is set and the NewsAPI request,
    its status check, its JSON decoding or the slice of ["articles"] fails. *)
Lemma fetch_news_None (env : option string) (resp : NewsApi.ApiResponse)
  (feeds : list (string * option Rss.ParsedFeed)) (limit : Z) :
  NewsApi.fetch_news env resp feeds limit = None <->
  NewsApi.key_of env <> "" /\ (resp = NewsApi.ApiRaised \/ resp = NewsApi.ApiArticlesNull).
Proof.
  unfold NewsApi.fetch_news, NewsApi.fetch_news_newsapi.
  destruct (String.eqb (NewsApi.key_of env) "") eqn:E.
  - apply String.eqb_eq in E. split; [discriminate|intros [H _]; contradiction].
  - apply String.eqb_neq in E. destruct resp as [| |arts].
    + split; [intros _; split; [exact E|left; reflexivity]|reflexivity].
    + split; [intros _; split; [exact E|right; reflexivity]|reflexivity].
    + destruct (map _ _); (split; [discriminate|intros [_ [H|H]]; discriminate H]).
Qed.

(** [main] never lets the classifier's or the plan builder's [IndexError]
    escape. It stops with a [RuntimeError] exactly when no downloaded row
    has all four OHLC values; otherwise it stops with the NewsAPI exception
    exactly when a NewsAPI key is set and the request (or the ["articles"]
    slice) fails; otherwise it produces a report whose [news] is the
    [fetch_news] result, whose [debug.rows] is the number of complete rows
    and whose [debug.price_source] is the label of [download_prices]. *)
Theorem main_core_outcome :
  forall (symbol : string) (yf stooq : Pipeline.Fetch) (env : option string)
         (resp : NewsApi.ApiResponse) (feeds : list (string * option Rss.ParsedFeed))
         (news_limit : Z),
    let complete := Pipeline.dropna (fst (Pipeline.download_prices yf stooq)) in
    let r := Pipeline.main_core symbol yf stooq env resp feeds news_limit in
    (forall e, r <> inl (Pipeline.Uncaught e)) /\
    (complete = [] <-> exists msg, r = inl (Pipeline.RuntimeError msg)) /\
    (r = inl Pipeline.NewsError <->
       complete <> [] /\ NewsApi.key_of env <> "" /\
       (resp = NewsApi.ApiRaised \/ resp = NewsApi.ApiArticlesNull)) /\
    (forall rep, r = inr rep ->
       NewsApi.fetch_news env resp feeds news_limit = Some (Pipeline.rep_news rep) /\
       Pipeline.rep_rows rep = length complete /\
       Pipeline.rep_price_source rep = snd (Pipeline.download_prices yf stooq)) /\
    (complete <> [] -> NewsApi.fetch_news env resp feeds news_limit <> None ->
       exists rep, r = inr rep).
Proof.
  intros symbol yf stooq env resp feeds lim complete r. subst complete r.
  unfold Pipeline.main_core.
  destruct (Pipeline.download_prices yf stooq) as [raw src]. cbn [fst snd].
  destruct raw as [|r0 raw'].
  - split; [intros e H; discriminate H|].
    split; [split; [intros _; eexists; reflexivity|intros _; reflexivity]|].
    split; [split; [discriminate|intros [Hc _]; exfalso; apply Hc; reflexivity]|].
    split; [intros rep H; discriminate H|].
    intros Hc; exfalso; apply Hc; reflexivity.
  - set (raw := r0 :: raw').
    destruct (Pipeline.dropna raw) as [|b df'] eqn:Ed.
    + split; [intros e H; discriminate H|].
      split; [split; [intros _; eexists; reflexivity|intros _; reflexivity]|].
      split; [split; [discriminate|intros [Hc _]; exfalso; apply Hc; reflexivity]|].
      split; [intros rep H; discriminate H|].
      intros Hc; exfalso; apply Hc; reflexivity.
    + set (rows := map Pipeline.to_row (Pipeline.enrich_indicators (b :: df'))).
      destruct (NewsApi.fetch_news env resp feeds lim) as [ns|] eqn:En.
      * assert (Hne : rows <> []).
        { intro H. apply (f_equal (@length Row)) in H.
          unfold rows in H. rewrite length_map, enrich_length in H. discriminate H. }
        destruct (iloc_last_nonempty rows Hne) as [x Hx].
        assert (Htl : exists out, traffic_light_logic rows ns = Ok out)
          by (unfold traffic_light_logic; rewrite Hx; eexists; reflexivity).
        assert (Hpl : exists p, build_plan_text rows = Ok p)
          by (unfold build_plan_text; rewrite Hx; eexists; reflexivity).
        destruct Htl as [out Ho], Hpl as [p Hp]. rewrite Ho, Hp.
        split; [intros e H; discriminate H|].
        split; [split; [discriminate|intros [msg H]; discriminate H]|].
        split; [split; [discriminate|intros [_ Hk]; apply (proj2 (fetch_news_None env resp feeds lim)) in Hk; congruence]|].
        split; [intros rep H; injection H as <-; split; [reflexivity|split; reflexivity]|].
        intros _ _. eexists. reflexivity.
      * split; [intros e H; discriminate H|].
        split; [split; [discriminate|intros [msg H]; discriminate H]|].
        split; [split; [intros _; split; [discriminate|apply (proj1 (fetch_news_None env resp feeds lim)); exact En]|reflexivity]|].
        split; [intros rep H; discriminate H|].
        intros _ Hn. contradiction.
Qed.

(** ** Moving averages and causality of [enrich_indicators] *)

Lemma all_defined_map_Some (l : list Q) : all_defined (map Some l) = Some l.
Proof. induction l as [|x l IH]; simpl; [reflexivity|]. rewrite IH. reflexivity. Qed.

Lemma rolling_at_Some (p : nat) (xs : list Q) (i : nat) :
  p <> 0%nat ->
  rolling_at p (map Some xs) i =
  if Nat.ltb (S i) p then None
  else Some (Qsum (firstn p (skipn (S i - p) xs)) / inject_Z (Z.of_nat p)).
Proof.
  intro Hp. unfold rolling_at. apply Nat.eqb_neq in Hp. rewrite Hp. cbn [orb].
  destruct (Nat.ltb (S i) p); [reflexivity|].
  rewrite skipn_map, firstn_map, all_defined_map_Some. reflexivity.
Qed.

Lemma nth_rolling (p : nat) (xs : list (option Q)) (i : nat) :
  (i < length xs)%nat -> nth i (rolling_mean p xs) None = rolling_at p xs i.
Proof.
  intro Hi. apply nth_error_nth. unfold rolling_mean.
  rewrite nth_error_map, (nth_error_nth' (seq 0 (length xs)) 0%nat (n := i))
    by (rewrite length_seq; exact Hi).
  rewrite seq_nth by exact Hi. reflexivity.
Qed.

Lemma rolling_at_app (p : nat) (xs ys : list (option Q)) (i : nat) :
  (i < length xs)%nat -> rolling_at p (xs ++ ys) i = rolling_at p xs i.
Proof.
  intro Hi. unfold rolling_at. destruct (Nat.eqb p 0); [reflexivity|]. cbn [orb].
  destruct (Nat.ltb (S i) p) eqn:E; [reflexivity|].
  apply Nat.ltb_ge in E.
  rewrite skipn_app, firstn_app, length_skipn.
  replace (p - (length xs - (S i - p)))%nat with 0%nat by lia.
  rewrite firstn_O, app_nil_r. reflexivity.
Qed.

Lemma ema_go_length (a p : Q) (xs : list Q) : length (Ewm.ema_go a p xs) = length xs.
Proof. revert p; induction xs; intro p; simpl; [reflexivity|]. rewrite IHxs. reflexivity. Qed.

Lemma ema_length (xs : list Q) (s : positive) : length (Ewm.ema xs s) = length xs.
Proof. destruct xs; simpl; [reflexivity|]. rewrite ema_go_length. reflexivity. Qed.

Lemma sub_series_length (u v : list Q) :
  length (Ewm.sub_series u v) = Nat.min (length u) (length v).
Proof. unfold Ewm.sub_series. rewrite length_map, length_combine. reflexivity. Qed.

Lemma ema_go_app (a p : Q) (xs ys : list Q) :
  exists t, Ewm.ema_go a p (xs ++ ys) = Ewm.ema_go a p xs ++ t.
Proof.
  revert p; induction xs as [|x xs IH]; intro p; simpl.
  - eexists; reflexivity.
  - destruct (IH ((1 - a) * p + a * x)) as [t Ht]. rewrite Ht. eexists; reflexivity.
Qed.

Lemma ema_app (xs ys : list Q) (s : positive) :
  exists t, Ewm.ema (xs ++ ys) s = Ewm.ema xs s ++ t.
Proof.
  destruct xs as [|x xs]; simpl; [eexists; reflexivity|].
  destruct (ema_go_app (Ewm.alpha s) x xs ys) as [t Ht]. rewrite Ht. eexists; reflexivity.
Qed.

Lemma sub_series_app (u u' v v' : list Q) :
  length u = length v ->
  Ewm.sub_series (u ++ u') (v ++ v') = Ewm.sub_series u v ++ Ewm.sub_series u' v'.
Proof.
  revert v; induction u as [|x u IH]; intros [|y v] H; try discriminate; [reflexivity|].
  unfold Ewm.sub_series in *. simpl. f_equal. apply IH. injection H as H. exact H.
Qed.

Lemma macd_app (xs ys : list Q) :
  exists t1 t2 t3,
    fst (fst (Ewm.macd (xs ++ ys))) = fst (fst (Ewm.macd xs)) ++ t1 /\
    snd (fst (Ewm.macd (xs ++ ys))) = snd (fst (Ewm.macd xs)) ++ t2 /\
    snd (Ewm.macd (xs ++ ys)) = snd (Ewm.macd xs) ++ t3.
Proof.
  unfold Ewm.macd; cbn [fst snd].
  destruct (ema_app xs ys 12) as [a Ha], (ema_app xs ys 26) as [b Hb].
  rewrite Ha, Hb, sub_series_app by (rewrite !ema_length; reflexivity).
  set (l := Ewm.sub_series (Ewm.ema xs 12) (Ewm.ema xs 26)).
  destruct (ema_app l (Ewm.sub_series a b) 9) as [c Hc]. rewrite Hc.
  rewrite sub_series_app by (rewrite ema_length; reflexivity).
  do 3 eexists. split; [reflexivity|split; reflexivity].
Qed.

Lemma macd_length (xs : list Q) :
  length (fst (fst (Ewm.macd xs))) = length xs /\
  length (snd (fst (Ewm.macd xs))) = length xs /\
  length (snd (Ewm.macd xs)) = length xs.
Proof.
  unfold Ewm.macd; cbn [fst snd].
  rewrite !sub_series_length, !ema_length, !sub_series_length, !ema_length.
  rewrite Nat.min_id. split; [reflexivity|split; [reflexivity|apply Nat.min_id]].
Qed.

Lemma nth_error_enrich (df : list Indicators.Bar) (i : nat) (e : Pipeline.EnrichedRow) :
  nth_error (Pipeline.enrich_indicators df) i = Some e ->
  (i < length df)%nat /\
  e = (let closes := map Indicators.Close df in
       let m := Ewm.macd closes in
       Pipeline.mkER (nth i df Pipeline.dummy_bar)
         (nth i (rolling_mean 20 (map Some closes)) None)
         (nth i (rolling_mean 50 (map Some closes)) None)
         (nth i (Indicators.rsi closes 14) None) (nth i (fst (fst m)) 0)
         (nth i (snd (fst m)) 0) (nth i (snd m) 0) (nth i (Indicators.atr df 14) None)).
Proof.
  intro H. unfold Pipeline.enrich_indicators in H.
  rewrite nth_error_map in H.
  destruct (nth_error (seq 0 (length df)) i) as [j|] eqn:E; [|discriminate].
  assert (Hi : (i < length df)%nat).
  { rewrite <- (length_seq (length df) 0). apply nth_error_Some. rewrite E. discriminate. }
  rewrite (nth_error_nth' _ 0%nat (n := i)) in E by (rewrite length_seq; exact Hi).
  rewrite seq_nth in E by exact Hi. injection E as <-. injection H as <-.
  split; [exact Hi|reflexivity].
Qed.

(** In [enrich_indicators], MA20 is undefined exactly on the first 19 rows
    and MA50 exactly on the first 49; from row 19 on, MA20 is the mean of
    the 20 closes ending at that row. *)
Theorem enrich_ma_warmup :
  forall (df : list Indicators.Bar) (i : nat) (e : Pipeline.EnrichedRow),
    nth_error (Pipeline.enrich_indicators df) i = Some e ->
    (Pipeline.er_MA20 e = None <-> (i < 19)%nat) /\
    (Pipeline.er_MA50 e = None <-> (i < 49)%nat) /\
    ((19 <= i)%nat ->
     Pipeline.er_MA20 e
     = Some (Qsum (firstn 20 (skipn (i - 19) (map Indicators.Close df))) / inject_Z 20)).
Proof.
  intros df i e H. apply nth_error_enrich in H as [Hi ->]. cbn [Pipeline.er_MA20 Pipeline.er_MA50].
  assert (Hl : (i < length (map (@Some Q) (map Indicators.Close df)))%nat)
    by (rewrite !length_map; exact Hi).
  rewrite !nth_rolling by exact Hl. rewrite !rolling_at_Some by discriminate.
  split; [|split].
  - destruct (Nat.ltb (S i) 20) eqn:E; [apply Nat.ltb_lt in E|apply Nat.ltb_ge in E].
    + split; intros; [lia|reflexivity].
    + split; [discriminate|lia].
  - destruct (Nat.ltb (S i) 50) eqn:E; [apply Nat.ltb_lt in E|apply Nat.ltb_ge in E].
    + split; intros; [lia|reflexivity].
    + split; [discriminate|lia].
  - intro H19. destruct (Nat.ltb (S i) 20) eqn:E; [apply Nat.ltb_lt in E; lia|].
    replace (S i - 20)%nat with (i - 19)%nat by lia. reflexivity.
Qed.

Lemma enrich_ma_warmup_witness :
  exists e,
    nth_error (Pipeline.enrich_indicators (repeat (Indicators.mkBar 1 1 1 1) 20)) 19 = Some e /\
    Pipeline.er_MA20 e <> None.
Proof.
  eexists. split; [vm_compute; reflexivity|].
  intro Hn.
  refine (_ (proj1 (proj1 (enrich_ma_warmup (repeat (Indicators.mkBar 1 1 1 1) 20) 19 _ _)) Hn));
    [intro Hlt; apply Nat.ltb_lt in Hlt; vm_compute in Hlt; discriminate Hlt
    |vm_compute; reflexivity].
Defined.

(** The MA20, MA50 and MACD columns are causal: appending rows to the price
    frame leaves their values on the existing rows unchanged. *)
Theorem enrich_causal_columns :
  forall (df more : list Indicators.Bar) (i : nat) (e e' : Pipeline.EnrichedRow),
    nth_error (Pipeline.enrich_indicators df) i = Some e ->
    nth_error (Pipeline.enrich_indicators (df ++ more)) i = Some e' ->
    Pipeline.er_bar e' = Pipeline.er_bar e /\
    Pipeline.er_MA20 e' = Pipeline.er_MA20 e /\
    Pipeline.er_MA50 e' = Pipeline.er_MA50 e /\
    Pipeline.er_MACD e' = Pipeline.er_MACD e /\
    Pipeline.er_MACDSignal e' = Pipeline.er_MACDSignal e /\
    Pipeline.er_MACDHist e' = Pipeline.er_MACDHist e.
Proof.
  intros df more i e e' H H'.
  apply nth_error_enrich in H as [Hi ->]. apply nth_error_enrich in H' as [_ ->].
  cbn [Pipeline.er_bar Pipeline.er_MA20 Pipeline.er_MA50 Pipeline.er_MACD
                 Pipeline.er_MACDSignal Pipeline.er_MACDHist].
  assert (Hl : (i < length (map (@Some Q) (map Indicators.Close df)))%nat)
    by (rewrite !length_map; exact Hi).
  assert (Hl' : (i < length (map (@Some Q) (map Indicators.Close (df ++ more))))%nat)
    by (rewrite !length_map, length_app; lia).
  rewrite !(nth_rolling _ _ _ Hl), !(nth_rolling _ _ _ Hl').
  rewrite map_app, map_app, !(rolling_at_app _ _ _ _ Hl).
  destruct (macd_app (map Indicators.Close df) (map Indicators.Close more))
    as [t1 [t2 [t3 [E1 [E2 E3]]]]].
  destruct (macd_length (map Indicators.Close df)) as [L1 [L2 L3]].
  rewrite length_map in L1, L2, L3.
  rewrite E1, E2, E3, !app_nth1 by lia.
  repeat split; reflexivity.
Qed.

Lemma enrich_causal_columns_witness :
  exists e e',
    nth_error (Pipeline.enrich_indicators [Indicators.mkBar 1 2 1 1]) 0 = Some e /\
    nth_error (Pipeline.enrich_indicators
                 ([Indicators.mkBar 1 2 1 1] ++ [Indicators.mkBar 1 3 1 2])) 0 = Some e' /\
    Pipeline.er_MACDHist e' = Pipeline.er_MACDHist e.
Proof.
  eexists. eexists. split; [vm_compute; reflexivity|]. split; [vm_compute; reflexivity|].
  refine (proj2 (proj2 (proj2 (proj2 (proj2
           (enrich_causal_columns [Indicators.mkBar 1 2 1 1] [Indicators.mkBar 1 3 1 2] 0 _ _ _ _))))));
    vm_compute; reflexivity.
Defined.

(** ** RSI on monotone series, ATR warm-up *)

Lemma bfill_all_none (xs : list (option Q)) :
  Forall (fun o => o = None) xs -> bfill xs = repeat None (length xs).
Proof.
  induction xs as [|x r IH]; intro H; [reflexivity|].
  inversion H as [|? ? Hx Hr]; subst. cbn [bfill length repeat].
  rewrite (IH Hr). destruct (length r); reflexivity.
Qed.

Lemma Qsum_zero (w : list Q) : Forall (fun v => v == 0) w -> Qsum w == 0.
Proof.
  induction w as [|x w IH]; intro H; simpl; [reflexivity|].
  inversion H as [|? ? Hx Hw]; subst. rewrite Hx, (IH Hw). reflexivity.
Qed.

Lemma rolling_mean_zero (p : nat) (xs : list (option Q)) :
  Forall (opt_all (fun v => v == 0)) xs ->
  Forall (opt_all (fun v => v == 0)) (rolling_mean p xs).
Proof.
  intro H. unfold rolling_mean. apply Forall_map, Forall_forall. intros i _.
  unfold rolling_at. destruct (Nat.eqb p 0 || Nat.ltb (S i) p)%bool; [exact I|].
  destruct (all_defined _) as [w|] eqn:E; [|exact I]. simpl.
  rewrite Qsum_zero; [reflexivity|].
  eapply all_defined_Forall; [exact E|].
  apply Forall_firstn_gen, Forall_skipn_gen, H.
Qed.

(** The per-step changes seen by [diff]: [None] or a consecutive difference. *)
Lemma diff_Forall (P : option Q -> Prop) (close : list Q) :
  P None ->
  Forall (fun pr => P (Some (snd pr - fst pr))) (combine close (List.tl close)) ->
  Forall P (Indicators.diff close).
Proof.
  intros H0 H. destruct close as [|x r]; [constructor|].
  cbn [Indicators.diff]. constructor; [exact H0|].
  apply Forall_map. exact H.
Qed.

Lemma rsi_out_of_zero_loss (close : list Q) (p : nat) :
  Forall (opt_all (fun v => v == 0)) (Indicators.avg_loss close p) ->
  Forall (fun o => o = None) (Indicators.rsi_out close p).
Proof.
  intro H. unfold Indicators.rsi_out. apply Forall_map, Forall_forall.
  intros [g l] Hin. apply in_combine_r in Hin.
  pose proof (proj1 (Forall_forall _ _) H l Hin) as Hl. simpl.
  destruct l as [l|]; simpl in *.
  - apply Qeq_bool_iff in Hl. rewrite Hl. destruct g; reflexivity.
  - destruct g; reflexivity.
Qed.

Lemma rsi_out_of_zero_gain (close : list Q) (p : nat) :
  Forall (opt_all (fun v => v == 0)) (Indicators.avg_gain close p) ->
  Forall (opt_all (fun v => v == 0)) (Indicators.rsi_out close p).
Proof.
  intro H. unfold Indicators.rsi_out. apply Forall_map, Forall_forall.
  intros [g l] Hin. apply in_combine_l in Hin.
  pose proof (proj1 (Forall_forall _ _) H g Hin) as Hg. simpl.
  destruct g as [g|]; [|exact I]. simpl in Hg.
  destruct (Indicators.replace0 l) as [m|]; [|exact I]. simpl.
  assert (Hd : g / m == 0) by (rewrite Hg; unfold Qdiv; ring).
  rewrite Hd. reflexivity.
Qed.

Lemma true_range_some (b : Indicators.Bar) (o : option Q) :
  exists v, Indicators.true_range b o = Some v.
Proof. destruct o; eexists; reflexivity. Qed.

Lemma all_defined_total (l : list (option Q)) :
  Forall (fun o => o <> None) l -> exists w, all_defined l = Some w.
Proof.
  induction l as [|[x|] l IH]; intro H; [eexists; reflexivity| |].
  - inversion H as [|? ? _ Hl]; subst. destruct (IH Hl) as [w Hw].
    exists (x :: w). simpl. rewrite Hw. reflexivity.
  - inversion H as [|? ? Hx _]. congruence.
Qed.

Lemma rolling_at_total (p : nat) (xs : list (option Q)) (i : nat) :
  (1 <= p)%nat ->
  Forall (fun o => o <> None) xs -> rolling_at p xs i = None <-> (S i < p)%nat.
Proof.
  intros Hp H. unfold rolling_at.
  replace (Nat.eqb p 0) with false by (symmetry; apply Nat.eqb_neq; lia). cbn [orb].
  destruct (Nat.ltb (S i) p) eqn:E; [apply Nat.ltb_lt in E|apply Nat.ltb_ge in E].
  - split; intros; [exact E|reflexivity].
  - destruct (all_defined_total (firstn p (skipn (S i - p) xs))) as [w Hw].
    { apply Forall_firstn_gen, Forall_skipn_gen, H. }
    rewrite Hw. split; [discriminate|lia].
Qed.

Lemma nth_error_rolling (p : nat) (xs : list (option Q)) (i : nat) :
  (i < length xs)%nat -> nth_error (rolling_mean p xs) i = Some (rolling_at p xs i).
Proof.
  intro Hi. rewrite (nth_error_nth' _ None (n := i)) by (rewrite rolling_mean_length; exact Hi).
  rewrite nth_rolling by exact Hi. reflexivity.
Qed.

Lemma first_some_skipn_upto (xs : list (option Q)) (i k : nat) (v : Q) :
  (i <= k)%nat ->
  (forall j, (i <= j < k)%nat -> nth_error xs j = Some None) ->
  nth_error xs k = Some (Some v) ->
  first_some (skipn i xs) = Some v.
Proof.
  revert i xs. induction k as [|k IH]; intros i xs Hik Hnone Hk.
  - assert (i = 0)%nat by lia. subst i. destruct xs as [|x r]; [discriminate|].
    simpl in Hk. injection Hk as ->. reflexivity.
  - destruct xs as [|x r]; [discriminate|]. destruct i as [|i].
    + pose proof (Hnone 0%nat ltac:(lia)) as H0. simpl in H0. injection H0 as ->.
      simpl. change r with (skipn 0 r). apply (IH 0%nat); [lia| |exact Hk].
      intros j Hj. apply (Hnone (S j)). lia.
    + simpl. apply IH; [lia| |exact Hk]. intros j Hj. apply (Hnone (S j)). lia.
Qed.

Lemma shift1_length (xs : list Q) : length (Indicators.shift1 xs) = length xs.
Proof.
  destruct xs as [|x r]; [reflexivity|]. unfold Indicators.shift1. cbn [length].
  rewrite length_map. f_equal. revert x. induction r as [|y r IH]; intro x; [reflexivity|].
  change (removelast (x :: y :: r)) with (x :: removelast (y :: r)).
  cbn [length]. rewrite IH. reflexivity.
Qed.

(** On a series that never falls, [rsi] is undefined everywhere: every
    average loss is 0 or undefined, [replace(0, nan)] turns it into NaN, and
    [bfill] has no value to fill from. *)
Theorem rsi_nondecreasing_undefined :
  forall (close : list Q) (period : nat),
    Forall (fun pr => fst pr <= snd pr) (combine close (List.tl close)) ->
    Indicators.rsi close period = repeat None (length close).
Proof.
  intros close period H. unfold Indicators.rsi.
  rewrite bfill_all_none, rsi_out_length; [reflexivity|].
  apply rsi_out_of_zero_loss. unfold Indicators.avg_loss.
  apply rolling_mean_zero, Forall_map, diff_Forall; [reflexivity|].
  eapply Forall_impl; [|exact H]. intros [a b] Hab. simpl in *.
  destruct (Qgtb 0 (b - a)) eqn:E; [apply Qgtb_true in E; lra|reflexivity].
Qed.

Lemma rsi_nondecreasing_undefined_witness :
  Forall (fun pr => fst pr <= snd pr) (combine [1; 1; 2; 5] (List.tl [1; 1; 2; 5])) /\
  Indicators.rsi [1; 1; 2; 5] 2 = repeat None 4.
Proof.
  assert (H : Forall (fun pr => fst pr <= snd pr) (combine [1; 1; 2; 5] (List.tl [1; 1; 2; 5]))).
  { repeat constructor; vm_compute; intro E; discriminate E. }
  split; [exact H|]. exact (rsi_nondecreasing_undefined [1; 1; 2; 5] 2 H).
Defined.

(** On a series that never rises, every defined [rsi] value is 0: the
    average gain is 0, so [rs = 0] and [100 - 100 / (1 + 0) = 0]. *)
Theorem rsi_nonincreasing_zero :
  forall (close : list Q) (period : nat),
    Forall (fun pr => snd pr <= fst pr) (combine close (List.tl close)) ->
    Forall (opt_all (fun v => v == 0)) (Indicators.rsi close period).
Proof.
  intros close period H. unfold Indicators.rsi.
  apply bfill_Forall, rsi_out_of_zero_gain. unfold Indicators.avg_gain.
  apply rolling_mean_zero, Forall_map, diff_Forall; [reflexivity|].
  eapply Forall_impl; [|exact H]. intros [a b] Hab. simpl in *.
  destruct (Qgtb (b - a) 0) eqn:E; [apply Qgtb_true in E; lra|reflexivity].
Qed.

Lemma rsi_nonincreasing_zero_witness :
  Forall (fun pr => snd pr <= fst pr) (combine [5; 4; 4; 1] (List.tl [5; 4; 4; 1])) /\
  Indicators.rsi [5; 4; 4; 1] 2 = [Some (0 # 2); Some (0 # 2); Some (0 # 2); Some (0 # 6)] /\
  Forall (opt_all (fun v => v == 0)) (Indicators.rsi [5; 4; 4; 1] 2).
Proof.
  assert (H : Forall (fun pr => snd pr <= fst pr) (combine [5; 4; 4; 1] (List.tl [5; 4; 4; 1]))).
  { repeat constructor; vm_compute; intro E; discriminate E. }
  split; [exact H|]. split; [vm_compute; reflexivity|].
  exact (rsi_nonincreasing_zero [5; 4; 4; 1] 2 H).
Defined.

(** The true-range series [atr] averages, as a lemma about its unfolding. *)
Lemma atr_unfold (df : list Indicators.Bar) (period : nat) :
  Indicators.atr df period
  = bfill (rolling_mean period
             (map (fun p => Indicators.true_range (fst p) (snd p))
                  (combine df (Indicators.shift1 (map Indicators.Close df))))).
Proof. reflexivity. Qed.

Lemma true_ranges_total (df : list Indicators.Bar) :
  Forall (fun o => o <> None)
    (map (fun p => Indicators.true_range (fst p) (snd p))
         (combine df (Indicators.shift1 (map Indicators.Close df)))) /\
  length (map (fun p => Indicators.true_range (fst p) (snd p))
              (combine df (Indicators.shift1 (map Indicators.Close df)))) = length df.
Proof.
  split.
  - apply Forall_map, Forall_forall. intros [b o] _. simpl.
    destruct (true_range_some b o) as [v ->]. discriminate.
  - rewrite length_map, length_combine, shift1_length, length_map. lia.
Qed.

(** ATR over a frame of at least [period >= 1] rows: every entry is
    defined, and the first [period - 1] entries repeat the entry at
    [period - 1], the first full window ([bfill] of the warm-up). *)
Theorem atr_defined_and_warmup :
  forall (df : list Indicators.Bar) (period : nat),
    (1 <= period)%nat -> (period <= length df)%nat ->
    length (Indicators.atr df period) = length df /\
    (forall i, (i < length df)%nat ->
       exists v, nth_error (Indicators.atr df period) i = Some (Some v)) /\
    (forall i, (i < period - 1)%nat ->
       nth_error (Indicators.atr df period) i
       = nth_error (Indicators.atr df period) (period - 1)).
Proof.
  intros df period Hp Hlen. rewrite atr_unfold.
  set (tr := map _ _). destruct (true_ranges_total df) as [Htot Hl]. fold tr in Htot, Hl.
  set (rm := rolling_mean period tr).
  assert (Hrm : forall j, (j < length df)%nat -> nth_error rm j = Some (rolling_at period tr j)).
  { intros j Hj. apply nth_error_rolling. lia. }
  assert (Hrml : length rm = length df) by (unfold rm; rewrite rolling_mean_length; exact Hl).
  (* every position reads the rolling value at [max i (period - 1)] *)
  assert (Hnth : forall i, (i < length df)%nat ->
            exists v, rolling_at period tr (Nat.max i (period - 1)) = Some v /\
                      nth_error (bfill rm) i = Some (Some v)).
  { intros i Hi.
    destruct (rolling_at period tr (Nat.max i (period - 1))) as [v|] eqn:Ev.
    2:{ apply (rolling_at_total period tr _ Hp Htot) in Ev. lia. }
    exists v. split; [reflexivity|].
    rewrite bfill_nth by lia. f_equal.
    apply (first_some_skipn_upto rm i (Nat.max i (period - 1))); [lia| |].
    - intros j Hj. rewrite Hrm by lia. f_equal.
      apply (rolling_at_total period tr j Hp Htot). lia.
    - rewrite Hrm by lia. rewrite Ev. reflexivity. }
  split; [|split].
  - rewrite bfill_length. exact Hrml.
  - intros i Hi. destruct (Hnth i Hi) as [v [_ Hv]]. exists v. exact Hv.
  - intros i Hi.
    destruct (Hnth i ltac:(lia)) as [v [Ev Hv]].
    destruct (Hnth (period - 1)%nat ltac:(lia)) as [w [Ew Hw]].
    rewrite Hv, Hw. replace (Nat.max i (period - 1)) with (Nat.max (period - 1) (period - 1)) in Ev by lia.
    congruence.
Qed.

Lemma atr_defined_and_warmup_witness :
  (1 <= 3)%nat /\ (3 <= length (repeat (Indicators.mkBar 1 2 1 1) 4))%nat /\
  nth_error (Indicators.atr (repeat (Indicators.mkBar 1 2 1 1) 4) 3) 0
  = nth_error (Indicators.atr (repeat (Indicators.mkBar 1 2 1 1) 4) 3) (3 - 1).
Proof.
  split; [lia|]. split; [simpl; lia|].
  exact (proj2 (proj2 (atr_defined_and_warmup (repeat (Indicators.mkBar 1 2 1 1) 4) 3
                          ltac:(lia) ltac:(simpl; lia))) 0%nat ltac:(lia)).
Defined.

(** ATR over a frame shorter than [period] rows is undefined everywhere:
    no full window exists and [bfill] has nothing to fill from. *)
Theorem atr_short_frame_undefined :
  forall (df : list Indicators.Bar) (period : nat),
    (length df < period)%nat ->
    Indicators.atr df period = repeat None (length df).
Proof.
  intros df period Hs. rewrite atr_unfold.
  destruct (true_ranges_total df) as [Htot Hl].
  rewrite bfill_all_none, rolling_mean_length, Hl; [reflexivity|].
  unfold rolling_mean. apply Forall_map, Forall_forall. intros j Hj.
  apply in_seq in Hj. apply rolling_at_total; [lia|exact Htot|]. lia.
Qed.

Lemma atr_short_frame_undefined_witness :
  (length [Indicators.mkBar 1 2 1 1; Indicators.mkBar 2 3 1 2] < 14)%nat /\
  Indicators.atr [Indicators.mkBar 1 2 1 1; Indicators.mkBar 2 3 1 2] 14 = [None; None].
Proof.
  assert (H : (length [Indicators.mkBar 1 2 1 1; Indicators.mkBar 2 3 1 2] < 14)%nat)
    by (simpl; lia).
  split; [exact H|].
  exact (atr_short_frame_undefined [Indicators.mkBar 1 2 1 1; Indicators.mkBar 2 3 1 2] 14 H).
Defined.



(** ** Properties of [fetch_news] *)

Lemma lstrip_nil_iff (l : list ascii) :
  News.lstrip l = [] <-> Forall (fun c => News.is_space c = true) l.
Proof.
  induction l as [|c r IH]; simpl; [split; intros; [constructor|reflexivity]|].
  destruct (News.is_space c) eqn:E.
  - rewrite IH. split; [intro H; constructor; assumption|intro H; inversion H; assumption].
  - split; [discriminate|intro H; inversion H; congruence].
Qed.

Lemma strip_nil_iff (l : list ascii) :
  News.strip l = [] <-> Forall (fun c => News.is_space c = true) l.
Proof.
  rewrite <- lstrip_nil_iff. unfold News.strip.
  pose proof (News.lstrip_head l) as Hh.
  destruct (News.lstrip l) as [|c r]; [split; reflexivity|].
  simpl in Hh. rewrite News.rstrip_cons_nonspace by exact Hh.
  split; discriminate.
Qed.

(** [os.getenv("NEWSAPI_KEY", "").strip()] is empty exactly when the
    variable is unset or holds only whitespace. *)
Lemma key_of_blank (env : option string) :
  NewsApi.key_of env = "" <->
  Forall (fun c => News.is_space c = true) (list_ascii_of_string (Rss.get_or env "")).
Proof.
  rewrite <- strip_nil_iff. unfold NewsApi.key_of.
  destruct (News.strip _) as [|c r]; simpl; split; intro H; try reflexivity; discriminate H.
Qed.

(** A NEWSAPI_KEY that is unset, empty or made only of whitespace is no
    key: [fetch_news] then never raises and returns the RSS result,
    whatever NewsAPI would answer. A key with any other character is used:
    a failing NewsAPI request then propagates out of [fetch_news]. *)
Theorem fetch_news_blank_key :
  forall (env : option string) (resp : NewsApi.ApiResponse)
         (feeds : list (string * option Rss.ParsedFeed)) (limit : Z),
    (Forall (fun c => News.is_space c = true) (list_ascii_of_string (Rss.get_or env "")) ->
       NewsApi.fetch_news env resp feeds limit = Some (Rss.fetch_news_rss feeds limit)) /\
    (Exists (fun c => News.is_space c = false) (list_ascii_of_string (Rss.get_or env "")) ->
       resp = NewsApi.ApiRaised ->
       NewsApi.fetch_news env resp feeds limit = None).
Proof.
  intros env resp feeds limit. split.
  - intro Hb. apply key_of_blank in Hb.
    unfold NewsApi.fetch_news, NewsApi.fetch_news_newsapi. rewrite Hb. reflexivity.
  - intros Hx ->.
    assert (Hk : NewsApi.key_of env <> "").
    { intro Hb. apply key_of_blank in Hb. apply Exists_exists in Hx as [c [Hin Hc]].
      rewrite Forall_forall in Hb. rewrite (Hb c Hin) in Hc. discriminate Hc. }
    unfold NewsApi.fetch_news, NewsApi.fetch_news_newsapi.
    apply String.eqb_neq in Hk. rewrite Hk. reflexivity.
Qed.

(** Whichever source answers, [fetch_news] returns at most [limit] items
    for [limit >= 0], each with a title in cleaned form and a summary of
    at most 240 characters. *)
Theorem fetch_news_output :
  forall (env : option string) (resp : NewsApi.ApiResponse)
         (feeds : list (string * option Rss.ParsedFeed)) (limit : Z) (out : list NewsItem),
    (0 <= limit)%Z ->
    NewsApi.fetch_news env resp feeds limit = Some out ->
    (Z.of_nat (length out) <= limit)%Z /\
    Forall (fun x => exists t, title x = Some t /\
                               News.CleanForm (list_ascii_of_string t) /\
                               (String.length (news_summary x) <= 240)%nat) out.
Proof.
  intros env resp feeds limit out Hl H.
  assert (Hrss : (Z.of_nat (length (Rss.fetch_news_rss feeds limit)) <= limit)%Z /\
                 Forall (fun x => exists t, title x = Some t /\
                                            News.CleanForm (list_ascii_of_string t) /\
                                            (String.length (news_summary x) <= 240)%nat)
                        (Rss.fetch_news_rss feeds limit)).
  { destruct (fetch_news_rss_props feeds limit) as [H1 [_ H3]]. split; [exact (H1 Hl)|].
    eapply Forall_impl; [|exact H3]. intros x [t [Et [_ Ht]]]. exists t. split; assumption. }
  unfold NewsApi.fetch_news, NewsApi.fetch_news_newsapi in H.
  destruct (String.eqb (NewsApi.key_of env) ""); [injection H as <-; exact Hrss|].
  destruct resp as [| |arts]; [discriminate|discriminate|].
  set (l := map NewsApi.api_item _) in H.
  assert (Hapi : (Z.of_nat (length l) <= limit)%Z /\
                 Forall (fun x => exists t, title x = Some t /\
                                            News.CleanForm (list_ascii_of_string t) /\
                                            (String.length (news_summary x) <= 240)%nat) l).
  { unfold l. split.
    - rewrite length_map. unfold Rss.py_slice_to.
      apply Z.leb_le in Hl as Hb. rewrite Hb, length_firstn. lia.
    - apply Forall_map, Forall_forall. intros a _. eexists. split; [reflexivity|].
      split; [apply clean_form|apply substring_length]. }
  destruct l as [|y ys]; injection H as <-; assumption.
Qed.

Lemma fetch_news_output_witness :
  (0 <= 1)%Z /\
  NewsApi.fetch_news (Some "k") (NewsApi.ApiData (Some [NewsApi.mkArticle None (Some " Gold  up ") None None None]))
    [] 1
  = Some [mkNews "NewsAPI" (Some "Gold up") "" "" ""] /\
  (Z.of_nat (length [mkNews "NewsAPI" (Some "Gold up") "" "" ""]) <= 1)%Z.
Proof.
  assert (H : NewsApi.fetch_news (Some "k")
                (NewsApi.ApiData (Some [NewsApi.mkArticle None (Some " Gold  up ") None None None]))
                [] 1
              = Some [mkNews "NewsAPI" (Some "Gold up") "" "" ""]) by (vm_compute; reflexivity).
  split; [lia|]. split; [exact H|].
  exact (proj1 (fetch_news_output _ _ _ 1 _ ltac:(lia) H)).
Defined.

Lemma nth_error_firstn_lt {A : Type} (l : list A) (n k : nat) (a : A) :
  nth_error l k = Some a -> (k < n)%nat -> nth_error (firstn n l) k = Some a.
Proof.
  intros H Hk. assert (Hl : (k < length l)%nat) by (apply nth_error_Some; congruence).
  rewrite <- (firstn_skipn n l) in H. rewrite nth_error_app1 in H; [exact H|].
  rewrite length_firstn. lia.
Qed.

(** With a key set and a non-empty article list, [fetch_news] returns one
    item per article among the first [limit], in order, whatever the
    article: unlike the RSS path, an empty title or a repeated
    (title, url) pair drops nothing. *)
Theorem newsapi_keeps_every_article :
  forall (env : option string) (arts : list NewsApi.Article)
         (feeds : list (string * option Rss.ParsedFeed)) (limit : Z),
    NewsApi.key_of env <> "" -> (0 < limit)%Z -> arts <> [] ->
    exists out,
      NewsApi.fetch_news env (NewsApi.ApiData (Some arts)) feeds limit = Some out /\
      length out = Nat.min (Z.to_nat limit) (length arts) /\
      (forall k a, nth_error arts k = Some a -> (k < Z.to_nat limit)%nat ->
         exists x, nth_error out k = Some x /\
                   title x = Some (News._clean (NewsApi.a_title a)) /\
                   url x = Rss.get_or (NewsApi.a_url a) "").
Proof.
  intros env arts feeds limit Hk Hl Hne.
  exists (map NewsApi.api_item (firstn (Z.to_nat limit) arts)).
  split; [|split].
  - unfold NewsApi.fetch_news, NewsApi.fetch_news_newsapi.
    apply String.eqb_neq in Hk. rewrite Hk. unfold Rss.py_slice_to.
    replace (Z.leb 0 limit) with true by (symmetry; apply Z.leb_le; lia).
    destruct arts as [|a0 arts']; [congruence|].
    destruct (Z.to_nat limit) as [|n] eqn:En; [lia|]. reflexivity.
  - rewrite length_map, length_firstn. reflexivity.
  - intros k a Ha Hkl. exists (NewsApi.api_item a). split; [|split; reflexivity].
    rewrite nth_error_map, (nth_error_firstn_lt arts _ k a Ha Hkl). reflexivity.
Qed.

Lemma newsapi_keeps_every_article_witness :
  NewsApi.key_of (Some "k") <> "" /\ (0 < 10)%Z /\
  [NewsApi.mkArticle None None None None None; NewsApi.mkArticle None None None None None] <> [] /\
  exists out,
    NewsApi.fetch_news (Some "k")
      (NewsApi.ApiData (Some [NewsApi.mkArticle None None None None None;
                              NewsApi.mkArticle None None None None None])) [] 10 = Some out /\
    length out = Nat.min (Z.to_nat 10) 2 /\
    (forall k a, nth_error [NewsApi.mkArticle None None None None None;
                            NewsApi.mkArticle None None None None None] k = Some a ->
       (k < Z.to_nat 10)%nat ->
       exists x, nth_error out k = Some x /\
                 title x = Some (News._clean (NewsApi.a_title a)) /\
                 url x = Rss.get_or (NewsApi.a_url a) "").
Proof.
  assert (Hk : NewsApi.key_of (Some "k") <> "") by (vm_compute; intro H; discriminate H).
  assert (Hl : (0 < 10)%Z) by lia.
  assert (Hn : [NewsApi.mkArticle None None None None None;
                NewsApi.mkArticle None None None None None] <> []) by discriminate.
  split; [exact Hk|]. split; [exact Hl|]. split; [exact Hn|].
  exact (newsapi_keeps_every_article (Some "k") _ [] 10 Hk Hl Hn).
Defined.

(** ** Moving averages on a rising series *)

Lemma firstn_plus {A : Type} (n m : nat) (l : list A) :
  firstn (n + m) l = firstn n l ++ firstn m (skipn n l).
Proof.
  revert l; induction n as [|n IH]; intros [|x l]; simpl; try reflexivity.
  - destruct m; reflexivity.
  - rewrite IH. reflexivity.
Qed.

Lemma firstn_one_skipn {A : Type} (l : list A) (i : nat) (d : A) :
  (i < length l)%nat -> firstn 1 (skipn i l) = [nth i l d].
Proof.
  revert i; induction l as [|x l IH]; intros i Hi; simpl in Hi; [lia|].
  destruct i as [|i]; [reflexivity|]. simpl. apply IH. lia.
Qed.

(** Strictly rising closes, written as the code's consecutive pairs. *)
Lemma rising_strongly_sorted (xs : list Q) :
  Forall (fun pr => fst pr < snd pr) (combine xs (List.tl xs)) -> StronglySorted Qlt xs.
Proof.
  induction xs as [|x r IH]; intro H; [constructor|].
  destruct r as [|y r]; [repeat constructor|].
  cbn [List.tl combine] in H. inversion H as [|? ? Hxy Hr]; subst. simpl in Hxy.
  specialize (IH Hr). constructor; [exact IH|].
  constructor; [exact Hxy|]. apply StronglySorted_inv in IH as [_ Hy].
  eapply Forall_impl; [|exact Hy]. intros z Hz. eapply Qlt_trans; eassumption.
Qed.

Lemma StronglySorted_skipn (n : nat) (l : list Q) :
  StronglySorted Qlt l -> StronglySorted Qlt (skipn n l).
Proof.
  revert l; induction n as [|n IH]; intros [|x l] H; simpl; try exact H.
  apply IH. apply StronglySorted_inv in H. apply H.
Qed.

Lemma StronglySorted_firstn (n : nat) (l : list Q) :
  StronglySorted Qlt l -> StronglySorted Qlt (firstn n l).
Proof.
  revert l; induction n as [|n IH]; intros [|x l] H; simpl; try constructor.
  - apply IH. apply StronglySorted_inv in H. apply H.
  - apply StronglySorted_inv in H as [_ H]. apply Forall_firstn_gen, H.
Qed.

Lemma StronglySorted_app_lt (a b : list Q) :
  StronglySorted Qlt (a ++ b) -> forall x y, In x a -> In y b -> x < y.
Proof.
  induction a as [|z a IH]; intros H x y Hx Hy; [contradiction|].
  apply StronglySorted_inv in H as [Hs Hf]. destruct Hx as [<-|Hx].
  - eapply Forall_forall; [exact Hf|]. apply in_or_app. right. exact Hy.
  - exact (IH Hs x y Hx Hy).
Qed.

Definition qlen (l : list Q) : Q := inject_Z (Z.of_nat (length l)).

Lemma qlen_cons (x : Q) (l : list Q) : qlen (x :: l) == 1 + qlen l.
Proof.
  unfold qlen. cbn [length]. rewrite Nat2Z.inj_succ, <- Z.add_1_l, inject_Z_plus. reflexivity.
Qed.

Lemma Qsum_le_bound (m : Q) (l : list Q) :
  Forall (fun x => x <= m) l -> Qsum l <= qlen l * m.
Proof.
  induction l as [|x l IH]; intro H;
    [unfold qlen, Qsum; cbn [length fold_right]; change (inject_Z (Z.of_nat 0)) with 0; lra|].
  inversion H as [|? ? Hx Hl]; subst. specialize (IH Hl).
  change (Qsum (x :: l)) with (x + Qsum l). rewrite qlen_cons. lra.
Qed.

Lemma Qsum_ge_bound (m : Q) (l : list Q) :
  Forall (fun x => m <= x) l -> qlen l * m <= Qsum l.
Proof.
  induction l as [|x l IH]; intro H;
    [unfold qlen, Qsum; cbn [length fold_right]; change (inject_Z (Z.of_nat 0)) with 0; lra|].
  inversion H as [|? ? Hx Hl]; subst. specialize (IH Hl).
  change (Qsum (x :: l)) with (x + Qsum l). rewrite qlen_cons. lra.
Qed.

Lemma Qsum_lt_bound (m : Q) (l : list Q) :
  l <> [] -> Forall (fun x => x < m) l -> Qsum l < qlen l * m.
Proof.
  destruct l as [|x l]; intros Hne H; [congruence|].
  inversion H as [|? ? Hx Hl]; subst.
  assert (Hle : Qsum l <= qlen l * m).
  { apply Qsum_le_bound. eapply Forall_impl; [|exact Hl]. intros y Hy. cbv beta in *. lra. }
  change (Qsum (x :: l)) with (x + Qsum l). rewrite qlen_cons. lra.
Qed.

Lemma Qsum_app_eq (l1 l2 : list Q) : Qsum (l1 ++ l2) == Qsum l1 + Qsum l2.
Proof.
  induction l1 as [|x l1 IH]; simpl; [ring|]. rewrite IH. ring.
Qed.

Lemma qlen_length (l : list Q) (n : nat) : length l = n -> qlen l = inject_Z (Z.of_nat n).
Proof. intros <-. reflexivity. Qed.

(** The two windows of row [i] (i >= 49) in the closes [xs]: the 50-row
    window is the 30 older closes followed by the 20-row window, which is
    19 older closes followed by the close of row [i]. *)
Lemma ma_windows (xs : list Q) (i : nat) (d : Q) :
  (49 <= i)%nat -> (i < length xs)%nat ->
  firstn 50 (skipn (i - 49) xs)
  = firstn 30 (skipn (i - 49) xs) ++ firstn 20 (skipn (i - 19) xs) /\
  firstn 20 (skipn (i - 19) xs) = firstn 19 (skipn (i - 19) xs) ++ [nth i xs d] /\
  length (firstn 30 (skipn (i - 49) xs)) = 30%nat /\
  length (firstn 19 (skipn (i - 19) xs)) = 19%nat.
Proof.
  intros H49 Hi. split; [|split; [|split]].
  - change 50%nat with (30 + 20)%nat. rewrite firstn_plus, skipn_skipn.
    replace (30 + (i - 49))%nat with (i - 19)%nat by lia. reflexivity.
  - change 20%nat with (19 + 1)%nat. rewrite firstn_plus, skipn_skipn.
    replace (19 + (i - 19))%nat with i by lia. rewrite (firstn_one_skipn xs i d Hi). reflexivity.
  - rewrite length_firstn, length_skipn. lia.
  - rewrite length_firstn, length_skipn. lia.
Qed.

(** On strictly rising closes, from row 49 on (both averages defined) the
    close lies above MA20 and MA20 above MA50. *)
Theorem rising_ma_order :
  forall (df : list Indicators.Bar) (i : nat) (e : Pipeline.EnrichedRow),
    Forall (fun pr => fst pr < snd pr)
           (combine (map Indicators.Close df) (List.tl (map Indicators.Close df))) ->
    (49 <= i)%nat ->
    nth_error (Pipeline.enrich_indicators df) i = Some e ->
    exists m20 m50,
      Pipeline.er_MA20 e = Some m20 /\ Pipeline.er_MA50 e = Some m50 /\
      m50 < m20 /\ m20 < Indicators.Close (Pipeline.er_bar e).
Proof.
  intros df i e Hrise H49 H. apply nth_error_enrich in H as [Hi ->].
  cbn [Pipeline.er_bar Pipeline.er_MA20 Pipeline.er_MA50].
  set (xs := map Indicators.Close df) in *.
  assert (Hl : (i < length (map (@Some Q) xs))%nat) by (unfold xs; rewrite !length_map; exact Hi).
  assert (Hx : (i < length xs)%nat) by (unfold xs; rewrite length_map; exact Hi).
  rewrite !(nth_rolling _ _ _ Hl), !rolling_at_Some by discriminate.
  replace (Nat.ltb (S i) 20) with false by (symmetry; apply Nat.ltb_ge; lia).
  replace (Nat.ltb (S i) 50) with false by (symmetry; apply Nat.ltb_ge; lia).
  replace (S i - 20)%nat with (i - 19)%nat by lia.
  replace (S i - 50)%nat with (i - 49)%nat by lia.
  set (d := Indicators.Close Pipeline.dummy_bar).
  assert (Hz : Indicators.Close (nth i df Pipeline.dummy_bar) = nth i xs d)
    by (unfold xs, d; rewrite map_nth; reflexivity).
  rewrite Hz.
  destruct (ma_windows xs i d H49 Hx) as [E50 [E20 [L30 L19]]].
  rewrite E50. rewrite E20.
  set (a := firstn 30 (skipn (i - 49) xs)) in *.
  set (u := firstn 19 (skipn (i - 19) xs)) in *.
  set (z := nth i xs d) in *.
  pose proof (rising_strongly_sorted xs Hrise) as Hs.
  assert (Hs50 : StronglySorted Qlt (a ++ u ++ [z])).
  { rewrite <- E20, <- E50. apply StronglySorted_firstn, StronglySorted_skipn, Hs. }
  assert (Hu : u <> []) by (intro E; rewrite E in L19; discriminate).
  assert (Ha : a <> []) by (intro E; rewrite E in L30; discriminate).
  destruct u as [|m u']; [congruence|].
  (* every element of the 19 older closes is below z *)
  assert (Huz : Forall (fun x => x < z) (m :: u')).
  { apply Forall_forall. intros x Hx'. apply (StronglySorted_app_lt (m :: u') [z]);
      [|exact Hx'|left; reflexivity].
    apply (StronglySorted_skipn (length a)) in Hs50. rewrite skipn_app, skipn_all, Nat.sub_diag in Hs50.
    exact Hs50. }
  (* every element of the 30 oldest closes is below m, the first of the 20 *)
  assert (Ham : Forall (fun x => x < m) a).
  { apply Forall_forall. intros x Hx'.
    apply (StronglySorted_app_lt a ((m :: u') ++ [z]) Hs50); [exact Hx'|left; reflexivity]. }
  (* every element of the 20-row window is at least m *)
  assert (Hmw : Forall (fun x => m <= x) ((m :: u') ++ [z])).
  { apply StronglySorted_skipn with (n := length a) in Hs50.
    rewrite skipn_app, skipn_all, Nat.sub_diag in Hs50. simpl in Hs50.
    apply StronglySorted_inv in Hs50 as [_ Hf]. constructor; [apply Qle_refl|].
    eapply Forall_impl; [|exact Hf]. intros x Hx'. cbv beta in *. lra. }
  pose proof (Qsum_lt_bound z _ Hu Huz) as B1.
  pose proof (Qsum_lt_bound m _ Ha Ham) as B2.
  pose proof (Qsum_ge_bound m _ Hmw) as B3.
  rewrite (qlen_length _ 19 L19) in B1. rewrite (qlen_length _ 30 L30) in B2.
  assert (L20 : length ((m :: u') ++ [z]) = 20%nat) by (rewrite length_app, L19; reflexivity).
  rewrite (qlen_length _ 20 L20) in B3.
  assert (S20 : Qsum ((m :: u') ++ [z]) == Qsum (m :: u') + z).
  { rewrite Qsum_app_eq. simpl. ring. }
  assert (S50 : Qsum (a ++ (m :: u') ++ [z]) == Qsum a + Qsum ((m :: u') ++ [z]))
    by apply Qsum_app_eq.
  do 2 eexists. split; [reflexivity|]. split; [reflexivity|].
  change (inject_Z (Z.of_nat 20)) with 20. change (inject_Z (Z.of_nat 50)) with 50.
  change (inject_Z (Z.of_nat 19)) with 19 in B1. change (inject_Z (Z.of_nat 30)) with 30 in B2.
  change (inject_Z (Z.of_nat 20)) with 20 in B3.
  unfold Qdiv. change (/ 20) with (1 # 20). change (/ 50) with (1 # 50).
  rewrite S50, S20. rewrite S20 in B3.
  split; lra.
Qed.

(** Fifty rows whose close rises by 1 each day. *)
Definition rising50 : list Indicators.Bar :=
  map (fun n => let q := inject_Z (Z.of_nat n) in Indicators.mkBar q q q q) (seq 1 50).

Lemma rising_ma_order_witness :
  exists e,
    Forall (fun pr => fst pr < snd pr)
           (combine (map Indicators.Close rising50) (List.tl (map Indicators.Close rising50))) /\
    (49 <= 49)%nat /\
    nth_error (Pipeline.enrich_indicators rising50) 49 = Some e /\
    exists m20 m50,
      Pipeline.er_MA20 e = Some m20 /\ Pipeline.er_MA50 e = Some m50 /\
      m50 < m20 /\ m20 < Indicators.Close (Pipeline.er_bar e).
Proof.
  assert (Hr : Forall (fun pr => fst pr < snd pr)
                 (combine (map Indicators.Close rising50) (List.tl (map Indicators.Close rising50)))).
  { apply Forall_forall. vm_compute. intros pr Hin.
    repeat (destruct Hin as [<-|Hin]; [reflexivity|]). contradiction. }
  set (e := nth 49 (Pipeline.enrich_indicators rising50)
                 (Pipeline.mkER Pipeline.dummy_bar None None None 0 0 0 None)).
  assert (He : nth_error (Pipeline.enrich_indicators rising50) 49 = Some e).
  { apply nth_error_nth'. rewrite enrich_length. unfold rising50. rewrite length_map, length_seq. lia. }
  exists e. split; [exact Hr|]. split; [lia|]. split; [exact He|].
  exact (rising_ma_order rising50 49 e Hr ltac:(lia) He).
Defined.
